(** * tele_ot: the question-answering bot of [io_ot.py]

    A shallow embedding of the query pipeline ([process_query],
    [generate_content]) and of the two Telegram handlers ([start],
    [message_handler]), followed by the properties of the pipeline and of the
    per-message failure handling.

    Python values are embedded as a small dynamically typed universe, the
    vector index, the generative model and the messaging session as
    state-passing services that may raise, and every call the program makes
    is recorded in a trace. *)

From Stdlib Require Import ZArith List String Ascii Bool Lia DecimalString.
From Stdlib Require Import DecimalPos DecimalZ.
From Stdlib Require Import Floats.SpecFloat.
Import ListNotations.

Open Scope string_scope.
Open Scope Z_scope.

#[local] Set Warnings "-register-all".

(** ** Python values *)

(** The values that can occur in a search response: JSON-like data.  A float
    is given by its exact binary value ([spec_float]: sign, mantissa,
    exponent), a dict by its items in order, with string keys. *)
Inductive pyval : Type :=
| PNone
| PBool (b : bool)
| PInt (z : Z)
| PFloat (f : spec_float)
| PStr (s : string)
| PList (l : list pyval)
| PDict (d : list (string * pyval)).

(** Instances of Python's [Exception]: class name and message ([str(e)]). *)
Record exn : Type := Exn { exn_class : string; exn_msg : string }.

(** A computation that returns or raises. *)
Definition res (A : Type) : Type := (exn + A)%type.

Definition rret {A} (a : A) : res A := inr a.
Definition rraise {A} (e : exn) : res A := inl e.
Definition rbind {A B} (m : res A) (k : A -> res B) : res B :=
  match m with
  | inl e => inl e
  | inr a => k a
  end.

(** The parts of the Python runtime whose text no property below depends on:
    [repr] of a float (its shortest round-trip decimal), [repr] of a list or
    dict, and the text of [round(f, 2)] for a float at or beyond 1e13, where
    two decimals are no longer the shortest form. *)
Record runtime : Type := Runtime {
  repr_float : spec_float -> string;
  repr_container : pyval -> string;
  repr_round2_wide : spec_float -> string
}.

Definition nl : string := String "010"%char EmptyString.
Definition dq : string := String "034"%char EmptyString.

Definition type_name (v : pyval) : string :=
  match v with
  | PNone => "NoneType"
  | PBool _ => "bool"
  | PInt _ => "int"
  | PFloat _ => "float"
  | PStr _ => "str"
  | PList _ => "list"
  | PDict _ => "dict"
  end.

Definition AttributeError (v : pyval) (attr : string) : exn :=
  Exn "AttributeError"
      ("'" ++ type_name v ++ "' object has no attribute '" ++ attr ++ "'").

Definition NotIterable (v : pyval) : exn :=
  Exn "TypeError" ("'" ++ type_name v ++ "' object is not iterable").

Definition NoRound (v : pyval) : exn :=
  Exn "TypeError" ("type " ++ type_name v ++ " doesn't define __round__ method").

(** [d.get(key, default)] on the items of a dict. *)
Fixpoint lookup (key : string) (d : list (string * pyval)) : option pyval :=
  match d with
  | [] => None
  | (k, v) :: rest => if String.eqb k key then Some v else lookup key rest
  end.

(** [v.get(key, default)]: only a dict has the method. *)
Definition py_get (v : pyval) (key : string) (default : pyval) : res pyval :=
  match v with
  | PDict d =>
      match lookup key d with
      | Some x => rret x
      | None => rret default
      end
  | _ => rraise (AttributeError v "get")
  end.

Fixpoint chars (s : string) : list pyval :=
  match s with
  | EmptyString => []
  | String c r => PStr (String c EmptyString) :: chars r
  end.

(** [iter(v)], run to the end: the elements of a list, the keys of a dict, the
    characters of a string. *)
Definition py_iter (v : pyval) : res (list pyval) :=
  match v with
  | PList l => rret l
  | PDict d => rret (map (fun kv => PStr (fst kv)) d)
  | PStr s => rret (chars s)
  | _ => rraise (NotIterable v)
  end.

(** ** Numbers as text *)

Definition string_of_Z (z : Z) : string := NilZero.string_of_int (Z.to_int z).

Definition sign_text (neg : bool) : string := if neg then "-" else "".

(** [n / d] rounded to the nearest integer, ties to the even one ([0 < d]). *)
Definition half_even (n d : Z) : Z :=
  let q := n / d in
  let r := n mod d in
  if 2 * r <? d then q
  else if d <? 2 * r then q + 1
  else if Z.even q then q else q + 1.

(** The magnitude [m * 2^e], in hundredths, correctly rounded. *)
Definition hundredths (m : positive) (e : Z) : Z :=
  if 0 <=? e then Z.pos m * 2 ^ e * 100
  else half_even (Z.pos m * 100) (2 ^ (- e)).

(** The digits after the point of [j] hundredths, [0 <= j < 100]: one digit
    when the second would be a zero. *)
Definition frac_text (j : Z) : string :=
  if j mod 10 =? 0 then string_of_Z (j / 10)
  else string_of_Z (j / 10) ++ string_of_Z (j mod 10).

(** [str(round(f, 2))] for a float [f].  [round] gives the float nearest to
    [k / 100], [k] the value in hundredths rounded half to even on the exact
    binary value; below 1e13 its [repr] is that decimal without a trailing
    zero, and with at least one digit after the point. *)
Definition float_round2_text (rt : runtime) (f : spec_float) : string :=
  match f with
  | S754_nan => "nan"
  | S754_infinity s => sign_text s ++ "inf"
  | S754_zero s => sign_text s ++ "0.0"
  | S754_finite s m e =>
      let k := hundredths m e in
      if k <? 10 ^ 15
      then sign_text s ++ string_of_Z (k / 100) ++ "." ++ frac_text (k mod 100)
      else repr_round2_wide rt f
  end.

(** [str(round(v, 2))], as the f-string of [process_query] renders a score:
    [round] keeps an int and turns a bool into an int. *)
Definition round2_text (rt : runtime) (v : pyval) : res string :=
  match v with
  | PInt z => rret (string_of_Z z)
  | PBool b => rret (if b then "1" else "0")
  | PFloat f => rret (float_round2_text rt f)
  | _ => rraise (NoRound v)
  end.

(** [str(v)], as an f-string renders [{v}]. *)
Definition py_str (rt : runtime) (v : pyval) : string :=
  match v with
  | PNone => "None"
  | PBool b => if b then "True" else "False"
  | PInt z => string_of_Z z
  | PFloat f => repr_float rt f
  | PStr s => s
  | PList _ | PDict _ => repr_container rt v
  end.

(** ** Context assembly: the formatting part of [process_query] *)

Definition NA : pyval := PStr "N/A".

(** One hit of the generator expression: the three adjacent f-strings, their
    fields evaluated from left to right. *)
Definition format_hit (rt : runtime) (hit : pyval) : res string :=
  rbind (py_get hit "_id" NA) (fun id =>
  rbind (py_get hit "_score" (PInt 0)) (fun score =>
  rbind (round2_text rt score) (fun score_text =>
  rbind (py_get hit "fields" (PDict [])) (fun f1 =>
  rbind (py_get f1 "page_number" NA) (fun page =>
  rbind (py_get hit "fields" (PDict [])) (fun f2 =>
  rbind (py_get f2 "topic" NA) (fun topic =>
  rbind (py_get hit "fields" (PDict [])) (fun f3 =>
  rbind (py_get f3 "chunk_text" NA) (fun chunk =>
  rret ("ID: " ++ py_str rt id ++ " | SCORE: " ++ score_text
        ++ " | PAGE_NUMBER: " ++ py_str rt page ++ nl
        ++ "TEXT_HEADER: " ++ py_str rt topic ++ nl
        ++ "TEXT_CONTENT: " ++ py_str rt chunk ++ nl ++ nl)))))))))).

(** [results.get('result', {}).get('hits', [])], iterated. *)
Definition hits_of (results : pyval) : res (list pyval) :=
  rbind (py_get results "result" (PDict [])) (fun r =>
  rbind (py_get r "hits" (PList [])) py_iter).

Fixpoint format_hits (rt : runtime) (hits : list pyval) : res (list string) :=
  match hits with
  | [] => rret []
  | hit :: rest =>
      rbind (format_hit rt hit) (fun block =>
      rbind (format_hits rt rest) (fun blocks => rret (block :: blocks)))
  end.

(** [formatted_results]: the blocks of one namespace, joined by a newline. *)
Definition format_results (rt : runtime) (results : pyval) : res string :=
  rbind (hits_of results) (fun hits =>
  rbind (format_hits rt hits) (fun blocks => rret (String.concat nl blocks))).

(** ** Prompt construction: the f-string of [generate_content] *)

Definition prompt_head : string :=
  nl ++
  "    You are a specialized AI assistant. Your sole purpose is to answer the user's query based exclusively on the provided search results. You must adhere to the following instructions without deviation." ++ nl ++
  nl ++
  "    **Instructions:**" ++ nl ++
  nl ++
  "    1.  **Analyze the User's Query:** The user wants to know: " ++ dq.

Definition prompt_context : string :=
  dq ++ nl ++
  nl ++
  "    2.  **Review the Provided Context:** You are given the following search results, each containing an ID, SCORE, PAGE_NUMBER, TEXT_HEADER, and TEXT_CONTENT." ++ nl ++
  nl ++
  "        ```context" ++ nl ++
  "        ".

Definition prompt_rules : string :=
  nl ++
  "        ```" ++ nl ++
  nl ++
  "    3.  **Synthesize the Answer:**" ++ nl ++
  "        * Formulate a descriptive answer to the user's query using *only* the information found in the `TEXT_CONTENT` of the provided results." ++ nl ++
  "        * The answer must be more than five sentences." ++ nl ++
  "        * Do not invent, infer, or use any information outside of the provided context." ++ nl ++
  "        * If you couldn't find a suitable answer to the ".

Definition prompt_tail : string :=
  ", just reply with " ++ dq ++ "Im sorry, there isnt a suitale answer to your question in the book." ++ dq ++ nl ++
  "    4.  **Cite Your Sources:**" ++ nl ++
  "        * After the answer, list the sources you used." ++ nl ++
  "        * For each source, you must include its `ID`, `SCORE`, and `PAGE_NUMBER`." ++ nl ++
  "        * Format each citation exactly as: `Source: " ++ nl ++ " ID: [ID], SCORE: [SCORE],HEADER:[TEXT_HEADER] PAGE_NUMBER: [PAGE_NUMBER]`" ++ nl ++
  "    " ++ nl ++
  nl ++
  "    **Output Mandate:**" ++ nl ++
  nl ++
  "    * Your entire output must consist of two parts ONLY: the synthesized answer first, followed by the list of source citations." ++ nl ++
  "    * DO NOT add any introductory phrases, greetings, apologies, or concluding remarks." ++ nl ++
  "    * DO NOT use any formatting other than what is specified." ++ nl ++
  "    ".

Definition system_prompt (query contents : string) : string :=
  prompt_head ++ query ++ prompt_context ++ contents ++ prompt_rules
  ++ query ++ prompt_tail.

(** ** The services and the trace of calls *)

(** One call made by the program, with what it gave back.  The log calls
    give nothing back. *)
Inductive event : Type :=
| EvLog (level : string) (msg : string)
| EvSearch (ns : string) (top_k : Z) (text : string) (out : res pyval)
| EvGenerate (prompt : string) (out : res string)
| EvRespond (chat : Z) (text : string) (out : res unit)
| EvActionEnter (chat : Z) (action : string) (out : res unit)
| EvActionExit (chat : Z) (action : string) (out : res unit).

(** The external collaborators, as transitions on a state of the outside
    world: [dense_index.search], [model.generate_content] followed by
    [response.text], [event.respond], and the two ends of
    [client.action(chat_id, action)]: entering the scope and leaving it, which
    awaits the typing task of the library and raises what that task raised. *)
Record services : Type := Services {
  world : Type;
  index_search : world -> string -> Z -> string -> world * res pyval;
  model_generate : world -> string -> world * res string;
  event_respond : world -> Z -> string -> world * res unit;
  action_enter : world -> Z -> string -> world * res unit;
  action_exit : world -> Z -> string -> world * res unit
}.

(** What a run leaves behind: the world, the calls made, in order, and the
    value returned or the exception raised. *)
Record run (W A : Type) : Type := Run {
  world_after : W;
  trace : list event;
  result : res A
}.

Arguments Run {W A} _ _ _.
Arguments world_after {W A} _.
Arguments trace {W A} _.
Arguments result {W A} _.

(** An inbound [events.NewMessage]: the text as it was sent, on which the
    pattern of a handler is matched; [event.text], the same text with its
    formatting rendered as markdown, equal to the first when the message has
    no formatting; and the chat. *)
Record new_message : Type := NewMessage {
  raw_text : string;
  text : string;
  chat_id : Z
}.

Module Bot.

Section Program.

Variable rt : runtime.
Variable sv : services.

Definition M (A : Type) : Type := world sv -> run (world sv) A.

Definition ret {A} (a : A) : M A := fun w => Run w [] (inr a).

Definition bind {A B} (m : M A) (k : A -> M B) : M B :=
  fun w =>
    let r := m w in
    match result r with
    | inl e => Run (world_after r) (trace r) (inl e)
    | inr a =>
        let r' := k a (world_after r) in
        Run (world_after r') (trace r ++ trace r') (result r')
    end.

Notation "x <- m ;; k" := (bind m (fun x => k))
  (at level 61, m at next level, right associativity).
Notation "m ;; k" := (bind m (fun _ => k))
  (at level 61, right associativity).

(** A pure step that may raise. *)
Definition lift {A} (m : res A) : M A := fun w => Run w [] m.

(** [try: m except Exception as e: h e]. *)
Definition try_except {A} (m : M A) (h : exn -> M A) : M A :=
  fun w =>
    let r := m w in
    match result r with
    | inr _ => r
    | inl e =>
        let r' := h e (world_after r) in
        Run (world_after r') (trace r ++ trace r') (result r')
    end.

Definition search (ns : string) (top_k : Z) (query : string) : M pyval :=
  fun w =>
    let (w', out) := index_search sv w ns top_k query in
    Run w' [EvSearch ns top_k query out] out.

Definition generate (prompt : string) : M string :=
  fun w =>
    let (w', out) := model_generate sv w prompt in
    Run w' [EvGenerate prompt out] out.

Definition respond (chat : Z) (msg : string) : M unit :=
  fun w =>
    let (w', out) := event_respond sv w chat msg in
    Run w' [EvRespond chat msg out] out.

Definition log (level msg : string) : M unit :=
  fun w => Run w [EvLog level msg] (inr tt).

(** [async with client.action(chat, action): body].  The scope is left
    however the body ends.  When leaving it raises, that exception is the
    outcome, also in the place of an exception of the body; otherwise the
    outcome is that of the body.  When entering fails the body does not
    run. *)
Definition with_action {A} (chat : Z) (action : string) (body : M A) : M A :=
  fun w =>
    let (w1, out) := action_enter sv w chat action in
    match out with
    | inl e => Run w1 [EvActionEnter chat action (inl e)] (inl e)
    | inr _ =>
        let r := body w1 in
        let (w2, out2) := action_exit sv (world_after r) chat action in
        Run w2
            (EvActionEnter chat action (inr tt) :: trace r
             ++ [EvActionExit chat action out2])
            match out2 with
            | inl e => inl e
            | inr _ => result r
            end
    end.

(** ** The query pipeline *)

Definition namespaces : list string := ["key_words"; "general_text"; "tables"].

Definition generate_content (query contents : string) : M string :=
  generate (system_prompt query contents).

(** The [for ns in namespaces] loop, [all_contexts] its accumulator. *)
Fixpoint retrieve_all (query : string) (nss : list string)
    (all_contexts : list string) : M (list string) :=
  match nss with
  | [] => ret all_contexts
  | ns :: rest =>
      results <- search ns 5 query ;;
      formatted_results <- lift (format_results rt results) ;;
      retrieve_all query rest (all_contexts ++ [formatted_results])
  end.

Definition process_query (query : string) : M string :=
  all_contexts <- retrieve_all query namespaces [] ;;
  generate_content query (String.concat nl all_contexts).

(** ** The Telegram handlers *)

Definition welcome_message : string :=
  "Hello! I am a Q&A bot for the Grade 11 Biology curriculum." ++ nl ++ nl ++
  "Please ask me a question, and I will find the answer for you from the textbook.".

Definition apology : string :=
  "I'm sorry, an unexpected error occurred while processing your request. Please try again later.".

Definition start (ev : new_message) : M unit :=
  respond (chat_id ev) welcome_message ;;
  log "INFO" ("Started new session for chat_id: " ++ string_of_Z (chat_id ev)).

(** The body of the [try] of [message_handler]. *)
Definition answer (ev : new_message) : M unit :=
  response_text <- process_query (text ev) ;;
  respond (chat_id ev) response_text ;;
  log "INFO" ("Successfully sent response to chat_id "
              ++ string_of_Z (chat_id ev)).

(** The [except Exception as e] branch. *)
Definition apologise (ev : new_message) (e : exn) : M unit :=
  log "ERROR" ("An error occurred while processing query for chat_id "
               ++ string_of_Z (chat_id ev) ++ ": " ++ exn_msg e) ;;
  respond (chat_id ev) apology.

Definition message_handler (ev : new_message) : M unit :=
  if String.prefix "/" (text ev) then ret tt
  else
    log "INFO" ("Received query from chat_id " ++ string_of_Z (chat_id ev)
                ++ ": '" ++ text ev ++ "'") ;;
    with_action (chat_id ev) "typing"
      (try_except (answer ev) (apologise ev)).

(** ** Dispatch of an inbound message

    Telethon offers every update to the registered handlers in the order of
    registration and awaits each one whose filter accepts it.  The filter of
    [events.NewMessage(pattern='/start')] is [re.compile('/start').match]:
    it accepts a text that begins with the pattern, and it is given the text
    as it was sent.  An exception that leaves a handler is logged by the
    library and goes no further. *)

Definition start_pattern (s : string) : bool := String.prefix "/start" s.

Definition contained (name : string) (m : M unit) : M unit :=
  try_except m (fun _ => log "ERROR" ("Unhandled exception on " ++ name)).

Definition dispatch (ev : new_message) : M unit :=
  (if start_pattern (raw_text ev) then contained "start" (start ev)
   else ret tt) ;;
  contained "message_handler" (message_handler ev).

(** The messages of a session, one after the other. *)
Fixpoint session (evs : list new_message) : M unit :=
  match evs with
  | [] => ret tt
  | ev :: rest => dispatch ev ;; session rest
  end.

End Program.

End Bot.

(** ** Reading a formatted block and a trace *)

(** The text of one hit, from the text of its five fields. *)
Definition render_block (id score page header content : string) : string :=
  "ID: " ++ id ++ " | SCORE: " ++ score ++ " | PAGE_NUMBER: " ++ page ++ nl
  ++ "TEXT_HEADER: " ++ header ++ nl
  ++ "TEXT_CONTENT: " ++ content ++ nl ++ nl.

(** A field of the [fields] dict of a hit; absent when [fields] is. *)
Definition field (d : list (string * pyval)) (key : string) : option pyval :=
  match lookup "fields" d with
  | Some (PDict f) => lookup key f
  | _ => None
  end.

(** The text of a field, the sentinel when it is missing. *)
Definition text_or_na (rt : runtime) (o : option pyval) : string :=
  match o with
  | Some v => py_str rt v
  | None => "N/A"
  end.

Definition is_number (v : pyval) : bool :=
  match v with
  | PInt _ | PBool _ | PFloat _ => true
  | _ => false
  end.

Definition is_dict (v : pyval) : bool :=
  match v with
  | PDict _ => true
  | _ => false
  end.

(** A hit whose score, when present, is a number, and whose [fields], when
    present, is a dict. *)
Definition well_formed_hit (d : list (string * pyval)) : Prop :=
  match lookup "_score" d with
  | Some v => is_number v = true
  | None => True
  end /\
  match lookup "fields" d with
  | Some v => is_dict v = true
  | None => True
  end.


Definition is_dot (c : ascii) : bool := Ascii.eqb c "."%char.


Fixpoint split_point (s : string) : string * option string :=
  match s with
  | EmptyString => (EmptyString, None)
  | String c r =>
      if is_dot c then (EmptyString, Some r)
      else let (a, b) := split_point r in (String c a, b)
  end.




Fixpoint has_dot (s : string) : bool :=
  match s with
  | EmptyString => false
  | String c r => is_dot c || has_dot r
  end.


Fixpoint collect {A B : Type} (f : A -> option B) (l : list A) : list B :=
  match l with
  | [] => []
  | a :: rest =>
      match f a with
      | Some b => b :: collect f rest
      | None => collect f rest
      end
  end.

(** The retrieval calls of a trace: namespace, [top_k], query text. *)
Definition searches (tr : list event) : list (string * Z * string) :=
  collect (fun ev => match ev with
                     | EvSearch ns k q _ => Some (ns, k, q)
                     | _ => None
                     end) tr.

(** What each retrieval call of a trace gave: its hits, in order, or the
    exception of the call or of reading the hits. *)
Definition hit_seqs (tr : list event) : list (res (list pyval)) :=
  collect (fun ev => match ev with
                     | EvSearch _ _ _ out => Some (rbind out hits_of)
                     | _ => None
                     end) tr.

(** The prompts sent to the model. *)
Definition prompts (tr : list event) : list string :=
  collect (fun ev => match ev with
                     | EvGenerate p _ => Some p
                     | _ => None
                     end) tr.

(** The replies sent, delivered or not: chat and text. *)
Definition replies (tr : list event) : list (Z * string) :=
  collect (fun ev => match ev with
                     | EvRespond c m _ => Some (c, m)
                     | _ => None
                     end) tr.

Definition is_search (ev : event) : bool :=
  match ev with
  | EvSearch _ _ _ _ => true
  | _ => false
  end.

(** The calls of [process_query]: retrieval and generation. *)
Definition is_pipeline (ev : event) : bool :=
  match ev with
  | EvSearch _ _ _ _ | EvGenerate _ _ => true
  | _ => false
  end.

Definition is_action (ev : event) : bool :=
  match ev with
  | EvActionEnter _ _ _ | EvActionExit _ _ _ => true
  | _ => false
  end.

(** The block of one namespace, from what its retrieval call gave. *)
Definition block_of (rt : runtime) (hits : res (list pyval)) : res string :=
  rbind hits (fun hs =>
  rbind (format_hits rt hs) (fun blocks => rret (String.concat nl blocks))).

Fixpoint blocks_of (rt : runtime) (seqs : list (res (list pyval)))
    : res (list string) :=
  match seqs with
  | [] => rret []
  | hits :: rest =>
      rbind (block_of rt hits) (fun block =>
      rbind (blocks_of rt rest) (fun blocks => rret (block :: blocks)))
  end.

(** The context as a function of the hit sequences of the namespaces: the
    blocks in order, joined by a newline. *)
Definition assemble (rt : runtime) (seqs : list (res (list pyval)))
    : res string :=
  rbind (blocks_of rt seqs) (fun blocks => rret (String.concat nl blocks)).

(** What the library logs after a handler: a line when the handler raised. *)
Definition library_log (name : string) (r : res unit) : list event :=
  match r with
  | inl _ => [EvLog "ERROR" ("Unhandled exception on " ++ name)]
  | inr _ => []
  end.

(** The three log lines of [message_handler]. *)
Definition received (ev : new_message) : event :=
  EvLog "INFO" ("Received query from chat_id " ++ string_of_Z (chat_id ev)
                ++ ": '" ++ text ev ++ "'").

Definition sent (ev : new_message) : event :=
  EvLog "INFO" ("Successfully sent response to chat_id "
                ++ string_of_Z (chat_id ev)).

Definition failed (ev : new_message) (e : exn) : event :=
  EvLog "ERROR" ("An error occurred while processing query for chat_id "
                 ++ string_of_Z (chat_id ev) ++ ": " ++ exn_msg e).

(** The three retrieval calls of a query. *)
Definition expected_searches (query : string) : list (string * Z * string) :=
  [("key_words", 5, query); ("general_text", 5, query); ("tables", 5, query)].

(** What follows the query in the guarded body of [message_handler]: the
    log line of the failure and the apology; the answer and its log line; or
    the answer that was not delivered, the log line of that and the apology. *)
Inductive tail_of (ev : new_message) : list event -> Prop :=
| tail_failed (e : exn) (out : res unit) :
    tail_of ev [failed ev e; EvRespond (chat_id ev) Bot.apology out]
| tail_sent (a : string) (u : unit) :
    tail_of ev [EvRespond (chat_id ev) a (inr u); sent ev]
| tail_unsent (a : string) (e : exn) (out : res unit) :
    tail_of ev [EvRespond (chat_id ev) a (inl e); failed ev e;
                EvRespond (chat_id ev) Bot.apology out].

(** The typing actions begun, and those ended. *)
Definition begun (tr : list event) : nat :=
  List.length (filter (fun ev => match ev with
                                 | EvActionEnter _ _ (inr _) => true
                                 | _ => false
                                 end) tr).

Definition ended (tr : list event) : nat :=
  List.length (filter (fun ev => match ev with
                                 | EvActionExit _ _ _ => true
                                 | _ => false
                                 end) tr).

(** The messages of a session that are not commands. *)
Definition queries (evs : list new_message) : list new_message :=
  filter (fun ev => negb (String.prefix "/" (text ev))) evs.

(** A value that [iter] refuses. *)
Definition not_iterable (v : pyval) : bool :=
  match v with
  | PNone | PBool _ | PInt _ | PFloat _ => true
  | _ => false
  end.

(** ** Sample data and sample worlds *)

Definition rt0 : runtime :=
  Runtime (fun _ => "?") (fun _ => "?") (fun _ => "?").

(** The float 0.5, as [1 * 2^(-1)]. *)
Definition half : spec_float := S754_finite false 1 (-1).

Definition hit_full : pyval :=
  PDict [("_id", PStr "bio-17");
         ("_score", PFloat half);
         ("fields", PDict [("page_number", PInt 42);
                           ("topic", PStr "Photosynthesis");
                           ("chunk_text", PStr "Light is absorbed by chlorophyll.")])].

Definition response_of (hits : list pyval) : pyval :=
  PDict [("result", PDict [("hits", PList hits)])].

Definition RetrievalError : exn := Exn "PineconeException" "index unreachable".
Definition GenerationError : exn := Exn "ServiceUnavailable" "model unavailable".
Definition DispatchError : exn := Exn "RPCError" "reply not delivered".

(** Two inbound messages, from two chats. *)
Definition question : new_message :=
  NewMessage "What is photosynthesis?" "What is photosynthesis?" 7.
Definition question2 : new_message :=
  NewMessage "What is osmosis?" "What is osmosis?" 8.

(** The command /start sent in bold: the pattern sees the text as sent, the
    handlers its markdown. *)
Definition bold_start : new_message := NewMessage "/start" "**/start**" 7.

Definition TypingError : exn := Exn "RPCError" "typing not sent".

(** A world without state: each service answers by its arguments alone. *)
Definition scripted (srch : string -> res pyval) (gen : string -> res string)
    (rsp : string -> res unit) : services :=
  Services unit
    (fun w ns _ _ => (w, srch ns))
    (fun w p => (w, gen p))
    (fun w _ m => (w, rsp m))
    (fun w _ _ => (w, inr tt))
    (fun w _ _ => (w, inr tt)).

(** Every namespace returns one full hit, the model answers, replies arrive. *)
Definition sv_ok : services :=
  scripted (fun _ => inr (response_of [hit_full]))
           (fun _ => inr "Plants turn light into sugar.")
           (fun _ => inr tt).

(** The first retrieval call fails. *)
Definition sv_no_index : services :=
  scripted (fun _ => inl RetrievalError)
           (fun _ => inr "Plants turn light into sugar.")
           (fun _ => inr tt).

(** The [tables] namespace fails, the other two return a hit. *)
Definition sv_no_tables : services :=
  scripted (fun ns => if String.eqb ns "tables" then inl RetrievalError
                      else inr (response_of [hit_full]))
           (fun _ => inr "Plants turn light into sugar.")
           (fun _ => inr tt).

(** No namespace has a hit. *)
Definition sv_empty : services :=
  scripted (fun _ => inr (response_of []))
           (fun _ => inr "Im sorry, there isnt a suitale answer to your question in the book.")
           (fun _ => inr tt).

(** The model answers, and no reply is ever delivered. *)
Definition sv_deaf : services :=
  scripted (fun _ => inr (response_of [hit_full]))
           (fun _ => inr "Plants turn light into sugar.")
           (fun _ => inl DispatchError).

(** The first namespace returns a hit that is not a dict. *)
Definition sv_garbled : services :=
  scripted (fun _ => inr (response_of [PStr "bio-17"]))
           (fun _ => inr "Plants turn light into sugar.")
           (fun _ => inr tt).

(** No reply is ever delivered, and the model fails. *)
Definition sv_mute : services :=
  scripted (fun _ => inr (response_of [hit_full]))
           (fun _ => inl GenerationError)
           (fun _ => inl DispatchError).

(** A world that counts the model calls: the first one fails, the later ones
    answer. *)
Definition sv_flaky : services :=
  Services nat
    (fun w ns _ _ => (w, inr (response_of [hit_full])))
    (fun w p => (S w, match w with
                      | O => inl GenerationError
                      | S _ => inr "Plants turn light into sugar."
                      end))
    (fun w _ m => (w, inr tt))
    (fun w _ _ => (w, inr tt))
    (fun w _ _ => (w, inr tt)).

(** The model fails, no reply is delivered, and leaving the typing scope
    raises what the typing task raised. *)
Definition sv_stuck : services :=
  Services unit
    (fun w ns _ _ => (w, inr (response_of [hit_full])))
    (fun w p => (w, inl GenerationError))
    (fun w _ m => (w, inl DispatchError))
    (fun w _ _ => (w, inr tt))
    (fun w _ _ => (w, inl TypingError)).

(** The [general_text] namespace returns a hit that is not a dict, and the
    [tables] namespace cannot be reached. *)
Definition sv_jam : services :=
  scripted (fun ns => if String.eqb ns "tables" then inl RetrievalError
                      else if String.eqb ns "general_text"
                           then inr (response_of [PStr "bio-17"])
                           else inr (response_of [hit_full]))
           (fun _ => inr "Plants turn light into sugar.")
           (fun _ => inr tt).

(** * Properties *)

(** ** Numbers as text *)








Lemma string_length_app (a b : string) :
  String.length (a ++ b) = (String.length a + String.length b)%nat.
Proof.
  induction a as [|c a IH]; simpl; [reflexivity|]. now rewrite IH.
Qed.








(** ** Reading a rendered number back *)


Lemma split_point_no_dot (a : string) :
  has_dot a = false -> split_point a = (a, None).
Proof.
  induction a as [|c a IH]; cbn; [reflexivity|].
  intros H. apply orb_false_iff in H as [Hc Ha].
  now rewrite Hc, (IH Ha).
Qed.







(** ** Context assembly of one hit *)

Lemma lookup_get (d : list (string * pyval)) (key : string) (dflt : pyval) :
  py_get (PDict d) key dflt
  = inr match lookup key d with Some v => v | None => dflt end.
Proof.
  unfold py_get. destruct (lookup key d); reflexivity.
Qed.

(** C2 (amended): a hit whose present score is a number and whose present
    [fields] is a dict is assembled without an exception; a missing
    identifier, page number, header or content is rendered as the sentinel
    N/A, and a missing score as 0. *)
Theorem format_hit_missing_fields (rt : runtime) (d : list (string * pyval)) :
  well_formed_hit d ->
  exists score,
    rbind (py_get (PDict d) "_score" (PInt 0)) (round2_text rt) = inr score /\
    (lookup "_score" d = None -> score = "0") /\
    text_or_na rt None = "N/A" /\
    format_hit rt (PDict d)
    = inr (render_block (text_or_na rt (lookup "_id" d)) score
             (text_or_na rt (field d "page_number"))
             (text_or_na rt (field d "topic"))
             (text_or_na rt (field d "chunk_text"))).
Proof.
  intros [Hs Hf].
  unfold format_hit, field. rewrite !lookup_get. cbn [rbind].
  destruct (lookup "fields" d) as [fv|];
    [destruct fv; try discriminate Hf|]; rewrite !lookup_get; cbn [rbind];
    (destruct (lookup "_score" d) as [sc|];
     [destruct sc; try discriminate Hs|]); cbn [round2_text rbind rret];
    eexists; (split; [reflexivity|]);
    (split; [try discriminate; reflexivity|]);
    (split; [reflexivity|]);
    unfold render_block, text_or_na;
    destruct (lookup "_id" d); try reflexivity;
    repeat match goal with
           | |- context [lookup ?k ?l] => destruct (lookup k l)
           end; reflexivity.
Qed.

Lemma format_hit_missing_fields_witness :
  exists score,
    rbind (py_get (PDict [("_id", PStr "bio-17")]) "_score" (PInt 0))
          (round2_text rt0) = inr score /\
    (lookup "_score" [("_id", PStr "bio-17")] = None -> score = "0") /\
    text_or_na rt0 None = "N/A" /\
    format_hit rt0 (PDict [("_id", PStr "bio-17")])
    = inr (render_block
             (text_or_na rt0 (lookup "_id" [("_id", PStr "bio-17")])) score
             (text_or_na rt0 (field [("_id", PStr "bio-17")] "page_number"))
             (text_or_na rt0 (field [("_id", PStr "bio-17")] "topic"))
             (text_or_na rt0 (field [("_id", PStr "bio-17")] "chunk_text"))).
Proof.
  apply (format_hit_missing_fields rt0 [("_id", PStr "bio-17")]).
  split; exact I.
Defined.

(** Against C2 as stated: a hit with no field at all is assembled with the
    score 0, not with the sentinel, in the place of the score. *)
Lemma missing_score_is_not_sentinel :
  format_hit rt0 (PDict [])
  = inr (render_block "N/A" "0" "N/A" "N/A" "N/A") /\
  format_hit rt0 (PDict [])
  <> inr (render_block "N/A" "N/A" "N/A" "N/A" "N/A").
Proof.
  split; [reflexivity | discriminate].
Qed.

(** ** The rendered score *)




(** ** The retrieval loop *)

Lemma collect_app {A B : Type} (f : A -> option B) (l1 l2 : list A) :
  collect f (l1 ++ l2)%list = (collect f l1 ++ collect f l2)%list.
Proof.
  induction l1 as [|a l1 IH]; simpl; [reflexivity|].
  destruct (f a); simpl; now rewrite IH.
Qed.

Section Pipeline.

Variable rt : runtime.
Variable sv : services.

(** One turn of the loop: the call, the formatting of what it returned, the
    rest of the loop. *)
Lemma retrieve_all_cons (q ns : string) (rest : list string)
    (acc : list string) (w : world sv) :
  Bot.retrieve_all rt sv q (ns :: rest) acc w
  = match index_search sv w ns 5 q with
    | (w1, inl e) => Run w1 [EvSearch ns 5 q (inl e)] (inl e)
    | (w1, inr results) =>
        match format_results rt results with
        | inl e => Run w1 [EvSearch ns 5 q (inr results)] (inl e)
        | inr formatted =>
            let r := Bot.retrieve_all rt sv q rest (acc ++ [formatted]) w1 in
            Run (world_after r) (EvSearch ns 5 q (inr results) :: trace r)
                (result r)
        end
    end.
Proof.
  cbn [Bot.retrieve_all]. unfold Bot.bind at 1. unfold Bot.search.
  destruct (index_search sv w ns 5 q) as [w1 [e|results]]; cbn; [reflexivity|].
  unfold Bot.bind at 1. unfold Bot.lift.
  destruct (format_results rt results) as [e|formatted]; cbn; reflexivity.
Qed.

(** The loop makes retrieval calls only. *)
Lemma retrieve_all_only_searches (q : string) (nss : list string) :
  forall acc w,
    forallb is_search (trace (Bot.retrieve_all rt sv q nss acc w)) = true.
Proof.
  induction nss as [|ns rest IH]; intros acc w; [reflexivity|].
  rewrite retrieve_all_cons.
  destruct (index_search sv w ns 5 q) as [w1 [e|results]]; [reflexivity|].
  destruct (format_results rt results); [reflexivity|].
  cbn. apply IH.
Qed.

(** The calls made are the first [n] of the namespaces, in order, all of them
    when the loop ends without an exception. *)
Lemma retrieve_all_searches (q : string) (nss : list string) :
  forall acc w,
    let r := Bot.retrieve_all rt sv q nss acc w in
    exists n,
      (n <= List.length nss)%nat /\
      (nss <> [] -> 1 <= n)%nat /\
      searches (trace r) = firstn n (map (fun ns => (ns, 5, q)) nss) /\
      (forall l, result r = inr l -> n = List.length nss).
Proof.
  induction nss as [|ns rest IH]; intros acc w r; subst r.
  - exists 0%nat. cbn. repeat split; auto; congruence.
  - rewrite retrieve_all_cons.
    destruct (index_search sv w ns 5 q) as [w1 [e|results]].
    { exists 1%nat. cbn. repeat split; try lia; discriminate. }
    destruct (format_results rt results) as [e|formatted].
    { exists 1%nat. cbn. repeat split; try lia; discriminate. }
    destruct (IH (acc ++ [formatted])%list w1) as (n & Hn & _ & Hs & Hall).
    exists (S n). cbn. repeat split; try lia.
    + unfold searches in *. cbn. now rewrite Hs.
    + intros l Hl. f_equal. eauto.
Qed.

(** A retrieval call that raises is the last event of the loop, and its
    exception is the outcome of the loop. *)
Lemma retrieve_all_raises (q : string) (nss : list string) :
  forall acc w ns k q' e,
    let r := Bot.retrieve_all rt sv q nss acc w in
    In (EvSearch ns k q' (inl e)) (trace r) ->
    result r = inl e /\
    exists before, trace r = (before ++ [EvSearch ns k q' (inl e)])%list.
Proof.
  induction nss as [|ns0 rest IH]; intros acc w ns k q' e r; subst r.
  - intros [].
  - rewrite retrieve_all_cons.
    destruct (index_search sv w ns0 5 q) as [w1 [e0|results]].
    { cbn. intros [H|[]]. injection H as -> -> -> ->.
      split; [reflexivity|]. now exists []. }
    destruct (format_results rt results) as [e0|formatted].
    { cbn. intros [H|[]]. discriminate. }
    cbn. intros [H|H]; [discriminate|].
    destruct (IH _ _ _ _ _ _ H) as (Hr & before & Hb).
    split; [assumption|].
    exists (EvSearch ns0 5 q (inr results) :: before). now rewrite Hb.
Qed.

Lemma retrieve_all_unformattable (q : string) (nss : list string) :
  forall acc w ns k q' results e,
    let r := Bot.retrieve_all rt sv q nss acc w in
    In (EvSearch ns k q' (inr results)) (trace r) ->
    format_results rt results = inl e ->
    result r = inl e /\
    exists before, trace r = (before ++ [EvSearch ns k q' (inr results)])%list.
Proof.
  induction nss as [|ns0 rest IH]; intros acc w ns k q' results e r; subst r.
  - intros [].
  - rewrite retrieve_all_cons.
    destruct (index_search sv w ns0 5 q) as [w1 [e0|results0]].
    { cbn. intros [H|[]]. discriminate H. }
    destruct (format_results rt results0) as [e0|formatted] eqn:Hf.
    { cbn. intros [H|[]] He. injection H as -> -> -> ->.
      rewrite Hf in He. injection He as ->.
      split; [reflexivity|]. now exists []. }
    cbn. intros [H|H] He.
    { injection H as -> -> -> ->. congruence. }
    destruct (IH _ _ _ _ _ _ _ H He) as (Hr & before & Hb).
    split; [assumption|].
    exists (EvSearch ns0 5 q (inr results0) :: before). now rewrite Hb.
Qed.

(** A loop that fails has failed at its last call: the call raised, or what
    it returned could not be formatted. *)
Lemma retrieve_all_failure (q : string) (nss : list string) :
  forall acc w e,
    let r := Bot.retrieve_all rt sv q nss acc w in
    result r = inl e ->
    exists before ns k q' out,
      trace r = (before ++ [EvSearch ns k q' out])%list /\
      rbind out (format_results rt) = inl e.
Proof.
  induction nss as [|ns0 rest IH]; intros acc w e r; subst r.
  - discriminate.
  - rewrite retrieve_all_cons.
    destruct (index_search sv w ns0 5 q) as [w1 [e0|results0]].
    { cbn. intros H. exists [], ns0, 5, q, (inl e0).
      split; [reflexivity|]. cbn. congruence. }
    destruct (format_results rt results0) as [e0|formatted] eqn:Hf.
    { cbn. intros H. exists [], ns0, 5, q, (inr results0).
      split; [reflexivity|]. cbn. congruence. }
    cbn. intros H.
    destruct (IH _ _ _ H) as (before & ns & k & q' & out & Hb & Hout).
    exists (EvSearch ns0 5 q (inr results0) :: before), ns, k, q', out.
    split; [now rewrite Hb | assumption].
Qed.

(** [process_query], unfolded: the loop, then the call of the model on the
    prompt built from the joined blocks. *)
Lemma process_query_run (q : string) (w : world sv) :
  Bot.process_query rt sv q w
  = let r := Bot.retrieve_all rt sv q Bot.namespaces [] w in
    match result r with
    | inl e => Run (world_after r) (trace r) (inl e)
    | inr all_contexts =>
        let prompt := system_prompt q (String.concat nl all_contexts) in
        match model_generate sv (world_after r) prompt with
        | (w2, out) => Run w2 (trace r ++ [EvGenerate prompt out]) out
        end
    end.
Proof.
  unfold Bot.process_query, Bot.bind, Bot.generate_content, Bot.generate.
  cbv zeta.
  destruct (result (Bot.retrieve_all rt sv q Bot.namespaces [] w));
    [reflexivity|].
  destruct (model_generate sv _ _). reflexivity.
Qed.

Lemma searches_only (tr : list event) :
  forallb is_search tr = true -> prompts tr = [] /\ replies tr = [].
Proof.
  induction tr as [|ev tr IH]; [now split|].
  cbn. intros H. apply andb_true_iff in H as [Hev Htr].
  destruct ev; try discriminate; now apply IH.
Qed.

(** A retrieval call that raises, or one whose result cannot be formatted,
    is the last event of the query, and its exception the outcome. *)
Lemma process_query_stops (q : string) (w : world sv)
    (ns : string) (k : Z) (q' : string) (out : res pyval) (e : exn) :
  let r := Bot.process_query rt sv q w in
  In (EvSearch ns k q' out) (trace r) ->
  rbind out (format_results rt) = inl e ->
  result r = inl e /\
  forallb is_search (trace r) = true /\
  exists before, trace r = (before ++ [EvSearch ns k q' out])%list.
Proof.
  cbv zeta. rewrite process_query_run. cbv zeta.
  pose proof (retrieve_all_only_searches q Bot.namespaces [] w) as Honly.
  assert (In (EvSearch ns k q' out)
             (trace (Bot.retrieve_all rt sv q Bot.namespaces [] w)) ->
          rbind out (format_results rt) = inl e ->
          result (Bot.retrieve_all rt sv q Bot.namespaces [] w) = inl e /\
          exists before,
            trace (Bot.retrieve_all rt sv q Bot.namespaces [] w)
            = (before ++ [EvSearch ns k q' out])%list) as Hstop.
  { intros Hin Hout. destruct out as [e0|results].
    - cbn in Hout. injection Hout as ->.
      exact (retrieve_all_raises q Bot.namespaces [] w ns k q' e Hin).
    - exact (retrieve_all_unformattable q Bot.namespaces [] w ns k q'
               results e Hin Hout). }
  destruct (result (Bot.retrieve_all rt sv q Bot.namespaces [] w))
    as [e0|all_contexts].
  - cbn [trace result]. intros Hin Hout.
    destruct (Hstop Hin Hout) as (He & Hb). injection He as ->.
    split; [reflexivity | split; assumption].
  - destruct (model_generate sv _ _) as [w2 out2]. cbn [trace].
    intros Hin Hout. apply in_app_or in Hin as [Hin|[Hin|[]]].
    + destruct (Hstop Hin Hout) as (He & _). discriminate He.
    + discriminate Hin.
Qed.

(** C1 (amended): the retrieval calls of a query are made one after the
    other in the fixed order key_words, general_text, tables, each with
    [top_k = 5] and the text of the query; the calls made are the first [n]
    of these three, with [n] at least 1, and all three whenever the model is
    called or an answer is returned.  A retrieval call that raises, and a
    returned result that cannot be formatted, fail the query at that point
    with that exception: it is the last call, the namespaces after it are not
    searched and the model is not called.  Fewer than three calls are made
    only in this way. *)
Theorem retrieval_calls (q : string) (w : world sv) :
  let r := Bot.process_query rt sv q w in
  (exists n,
      (1 <= n <= 3)%nat /\
      searches (trace r) = firstn n (expected_searches q) /\
      (forall a, result r = inr a -> n = 3%nat) /\
      (prompts (trace r) <> [] -> n = 3%nat) /\
      (n < 3 ->
       prompts (trace r) = [] /\
       exists e before ns k q' out,
         result r = inl e /\
         trace r = (before ++ [EvSearch ns k q' out])%list /\
         rbind out (format_results rt) = inl e)%nat) /\
  (forall ns k q' e,
      In (EvSearch ns k q' (inl e)) (trace r) ->
      result r = inl e /\
      prompts (trace r) = [] /\
      exists before,
        trace r = (before ++ [EvSearch ns k q' (inl e)])%list) /\
  (forall ns k q' results e,
      In (EvSearch ns k q' (inr results)) (trace r) ->
      format_results rt results = inl e ->
      result r = inl e /\
      prompts (trace r) = [] /\
      exists before,
        trace r = (before ++ [EvSearch ns k q' (inr results)])%list).
Proof.
  cbv zeta. split; [|split].
  - rewrite process_query_run. cbv zeta.
    destruct (retrieve_all_searches q Bot.namespaces [] w)
      as (n & Hn & H1 & Hs & Hall).
    pose proof (retrieve_all_only_searches q Bot.namespaces [] w) as Honly.
    apply searches_only in Honly as [Hp _].
    pose proof (retrieve_all_failure q Bot.namespaces [] w) as Hfail.
    cbv zeta in Hfail.
    change (List.length Bot.namespaces) with 3%nat in *.
    change (map (fun ns => (ns, 5, q)) Bot.namespaces)
      with (expected_searches q) in Hs.
    exists n.
    destruct (result (Bot.retrieve_all rt sv q Bot.namespaces [] w))
      as [e|all_contexts] eqn:Hres.
    + cbn [trace result].
      split; [split; [apply H1; discriminate | assumption]|].
      split; [assumption|]. split; [discriminate|].
      split; [intros H; now elim H|].
      intros _. split; [assumption|].
      destruct (Hfail e eq_refl) as (before & ns & k & q' & out & Hb & Ho).
      exists e, before, ns, k, q', out. now repeat split.
    + destruct (model_generate sv _ _) as [w2 out].
      cbn [trace result].
      assert (n = 3%nat) as -> by eauto.
      split; [lia|].
      split; [unfold searches in *; rewrite collect_app, Hs; reflexivity|].
      split; [reflexivity|]. split; [reflexivity|]. lia.
  - intros ns k q' e Hin.
    destruct (process_query_stops q w ns k q' (inl e) e Hin eq_refl)
      as (Hres & Honly & Hb).
    split; [assumption|]. split; [|assumption].
    now apply searches_only in Honly.
  - intros ns k q' results e Hin Hf.
    destruct (process_query_stops q w ns k q' (inr results) e Hin Hf)
      as (Hres & Honly & Hb).
    split; [assumption|]. split; [|assumption].
    now apply searches_only in Honly.
Qed.

(** ** The message handler, unfolded *)

(** The body of the [try]: the query, then the reply and its log line. *)
Lemma answer_run (ev : new_message) (w : world sv) :
  Bot.answer rt sv ev w
  = let p := Bot.process_query rt sv (text ev) w in
    match result p with
    | inl e => Run (world_after p) (trace p) (inl e)
    | inr response_text =>
        match event_respond sv (world_after p) (chat_id ev) response_text with
        | (w2, inl e) =>
            Run w2 (trace p ++ [EvRespond (chat_id ev) response_text (inl e)])
                (inl e)
        | (w2, inr u) =>
            Run w2 (trace p ++ [EvRespond (chat_id ev) response_text (inr u);
                                sent ev])
                (inr tt)
        end
    end.
Proof.
  unfold Bot.answer. unfold Bot.bind at 1. cbv zeta.
  destruct (result (Bot.process_query rt sv (text ev) w)) as [e|a];
    [reflexivity|].
  unfold Bot.bind, Bot.respond, Bot.log, sent.
  destruct (event_respond sv _ (chat_id ev) a) as [w2 [e|u]]; reflexivity.
Qed.

(** The [except] branch: the log line, then the apology. *)
Lemma apologise_run (ev : new_message) (e : exn) (w : world sv) :
  Bot.apologise sv ev e w
  = match event_respond sv w (chat_id ev) Bot.apology with
    | (w2, out) =>
        Run w2 [failed ev e; EvRespond (chat_id ev) Bot.apology out] out
    end.
Proof.
  unfold Bot.apologise, Bot.bind, Bot.respond, Bot.log, failed. cbn.
  destruct (event_respond sv w (chat_id ev) Bot.apology) as [w2 out].
  reflexivity.
Qed.

(** The handler on a text that is not a command. *)
Lemma message_handler_run (ev : new_message) (w : world sv) :
  String.prefix "/" (text ev) = false ->
  Bot.message_handler rt sv ev w
  = match action_enter sv w (chat_id ev) "typing" with
    | (w1, inl e) =>
        Run w1 [received ev; EvActionEnter (chat_id ev) "typing" (inl e)]
            (inl e)
    | (w1, inr _) =>
        let b := Bot.try_except sv (Bot.answer rt sv ev)
                   (Bot.apologise sv ev) w1 in
        match action_exit sv (world_after b) (chat_id ev) "typing" with
        | (w2, out2) =>
            Run w2
                (received ev :: EvActionEnter (chat_id ev) "typing" (inr tt)
                 :: trace b ++ [EvActionExit (chat_id ev) "typing" out2])
                match out2 with
                | inl e => inl e
                | inr _ => result b
                end
        end
    end.
Proof.
  intros Hc. unfold Bot.message_handler. rewrite Hc.
  unfold Bot.bind, Bot.log, Bot.with_action, received. cbn.
  destruct (action_enter sv w (chat_id ev) "typing") as [w1 [e|u]];
    [reflexivity|]. cbv zeta.
  destruct (action_exit sv _ (chat_id ev) "typing") as [w2 [e|u2]];
    reflexivity.
Qed.

(** The [try] with its [except]: the body alone when it ends well, the body
    followed by the [except] branch when it raises. *)
Lemma guarded_answer_run (ev : new_message) (w : world sv) :
  Bot.try_except sv (Bot.answer rt sv ev) (Bot.apologise sv ev) w
  = let a := Bot.answer rt sv ev w in
    match result a with
    | inr _ => a
    | inl e =>
        match event_respond sv (world_after a) (chat_id ev) Bot.apology with
        | (w2, out) =>
            Run w2 (trace a ++ [failed ev e;
                                EvRespond (chat_id ev) Bot.apology out])
                out
        end
    end.
Proof.
  unfold Bot.try_except. cbv zeta.
  destruct (result (Bot.answer rt sv ev w)) as [e|u]; [|reflexivity].
  rewrite apologise_run.
  destruct (event_respond sv _ (chat_id ev) Bot.apology) as [w2 out].
  reflexivity.
Qed.

Lemma pipeline_only (tr : list event) :
  forallb is_pipeline tr = true ->
  replies tr = [] /\ existsb is_action tr = false.
Proof.
  induction tr as [|ev tr IH]; [now split|].
  cbn. intros H. apply andb_true_iff in H as [Hev Htr].
  destruct ev; try discriminate; now apply IH.
Qed.

Lemma process_query_pipeline_only (q : string) (w : world sv) :
  forallb is_pipeline (trace (Bot.process_query rt sv q w)) = true.
Proof.
  rewrite process_query_run. cbv zeta.
  assert (forallb is_pipeline
            (trace (Bot.retrieve_all rt sv q Bot.namespaces [] w)) = true)
    as Hloop.
  { pose proof (retrieve_all_only_searches q Bot.namespaces [] w) as H.
    rewrite forallb_forall in *. intros ev Hev.
    specialize (H ev Hev). now destruct ev. }
  destruct (result _); [exact Hloop|].
  destruct (model_generate sv _ _) as [w2 out]. cbn [trace].
  rewrite forallb_app, Hloop. reflexivity.
Qed.

(** The replies of the handler to a message that is not a command, from
    the trace of its guarded body. *)
Lemma message_handler_replies (ev : new_message) (w w1 : world sv) :
  String.prefix "/" (text ev) = false ->
  action_enter sv w (chat_id ev) "typing" = (w1, inr tt) ->
  replies (trace (Bot.message_handler rt sv ev w))
  = replies (trace (Bot.try_except sv (Bot.answer rt sv ev)
                      (Bot.apologise sv ev) w1)).
Proof.
  intros Hc Henter. rewrite (message_handler_run _ _ Hc), Henter. cbv zeta.
  destruct (action_exit sv _ (chat_id ev) "typing") as [w2 out2].
  cbn [trace]. unfold replies. cbn. rewrite collect_app. cbn.
  apply app_nil_r.
Qed.

(** In a trace that ends with a raising call, the calls before it returned
    results that were formatted. *)
Lemma retrieve_all_formatted_before (q : string) (nss : list string) :
  forall acc w before last,
    trace (Bot.retrieve_all rt sv q nss acc w) = (before ++ [last])%list ->
    Forall (fun ev => exists ns results block,
                ev = EvSearch ns 5 q (inr results) /\
                format_results rt results = inr block) before.
Proof.
  induction nss as [|ns0 rest IH]; intros acc w before last.
  - cbn. intros H. now destruct before.
  - rewrite retrieve_all_cons.
    destruct (index_search sv w ns0 5 q) as [w1 [e0|results0]].
    { cbn. intros H. destruct before as [|x [|y before]];
        [constructor | discriminate H | discriminate H]. }
    destruct (format_results rt results0) as [e0|formatted] eqn:Hf.
    { cbn. intros H. destruct before as [|x [|y before]];
        [constructor | discriminate H | discriminate H]. }
    cbn. intros H. destruct before as [|x before]; [constructor|].
    cbn in H. injection H as <- H. constructor.
    + now exists ns0, results0, formatted.
    + exact (IH _ _ _ _ H).
Qed.

(** C5 (amended): when a retrieval call of a query raises, the query fails
    with that exception: the failed call is the last thing [process_query]
    does, no later namespace is searched, no prompt is built from what was
    retrieved and the model is not called; the handler sends the fixed
    apology and nothing else.  The results of the calls before it have been
    assembled into their blocks by then, each one right after its call, and
    these blocks are dropped. *)
Theorem failed_retrieval_fails_query (ev : new_message) (w0 w : world sv)
    (ns : string) (k : Z) (q' : string) (e : exn) :
  In (EvSearch ns k q' (inl e)) (trace (Bot.process_query rt sv (text ev) w)) ->
  let r := Bot.process_query rt sv (text ev) w in
  result r = inl e /\
  prompts (trace r) = [] /\
  (exists before,
      trace r = (before ++ [EvSearch ns k q' (inl e)])%list /\
      Forall (fun ev' => exists ns' results block,
                  ev' = EvSearch ns' 5 (text ev) (inr results) /\
                  format_results rt results = inr block) before) /\
  (String.prefix "/" (text ev) = false ->
   action_enter sv w0 (chat_id ev) "typing" = (w, inr tt) ->
   replies (trace (Bot.message_handler rt sv ev w0))
   = [(chat_id ev, Bot.apology)]).
Proof.
  intros Hin r. subst r.
  destruct (process_query_stops (text ev) w ns k q' (inl e) e Hin eq_refl)
    as (Hres & Honly & before & Hbefore).
  destruct (searches_only _ Honly) as [Hp Hr].
  split; [assumption|]. split; [assumption|]. split.
  - exists before. split; [assumption|].
    revert Hbefore Honly. rewrite process_query_run. cbv zeta.
    destruct (result (Bot.retrieve_all rt sv (text ev) Bot.namespaces [] w))
      as [e0|all_contexts].
    + cbn [trace]. intros Hb _.
      exact (retrieve_all_formatted_before _ _ _ _ _ _ Hb).
    + destruct (model_generate sv _ _) as [w2 out]. cbn [trace].
      intros _ Honly. rewrite forallb_app in Honly. cbn in Honly.
      rewrite andb_false_r in Honly. discriminate Honly.
  - intros Hc Henter.
    rewrite (message_handler_replies _ _ _ Hc Henter).
    rewrite guarded_answer_run, answer_run. cbv zeta. rewrite Hres.
    cbn [result world_after trace].
    destruct (event_respond sv _ (chat_id ev) Bot.apology) as [w2 out].
    cbn [trace]. unfold replies in *.
    rewrite !collect_app, Hr. reflexivity.
Qed.

(** ** Failure handling in [message_handler] *)

Lemma prefix_head (a : ascii) (p s : string) :
  String.prefix (String a p) s = true ->
  String.prefix (String a EmptyString) s = true.
Proof.
  destruct s as [|c s]; cbn [String.prefix]; [discriminate|].
  destruct (ascii_dec a c); [now destruct s | discriminate].
Qed.

Lemma start_pattern_command (s : string) :
  Bot.start_pattern s = true -> String.prefix "/" s = true.
Proof.
  apply prefix_head.
Qed.

Lemma bind_returns {A B : Type} (m : Bot.M sv A) (k : A -> Bot.M sv B)
    (w : world sv) (a : A) :
  result (m w) = inr a ->
  Bot.bind sv m k w
  = let r := k a (world_after (m w)) in
    Run (world_after r) (trace (m w) ++ trace r) (result r).
Proof.
  intros H. unfold Bot.bind. now rewrite H.
Qed.

(** The handler with the library around it returns, whatever the handler
    does. *)
Lemma contained_returns (name : string) (m : Bot.M sv unit) (w : world sv) :
  result (Bot.contained sv name m w) = inr tt.
Proof.
  unfold Bot.contained, Bot.try_except, Bot.log.
  destruct (result (m w)) as [e|[]] eqn:E; [reflexivity | exact E].
Qed.

Lemma dispatch_returns (ev : new_message) (w : world sv) :
  result (Bot.dispatch rt sv ev w) = inr tt.
Proof.
  unfold Bot.dispatch, Bot.bind.
  destruct (Bot.start_pattern (raw_text ev)).
  - rewrite contained_returns. cbn [result]. apply contained_returns.
  - cbn [Bot.ret result]. apply contained_returns.
Qed.

(** The handler with the library around it: the trace of the handler, with
    the log line of the library when the handler raises. *)
Lemma contained_handler (ev : new_message) (w : world sv) :
  let h := Bot.message_handler rt sv ev w in
  let c := Bot.contained sv "message_handler" (Bot.message_handler rt sv ev) w
  in
  world_after c = world_after h /\
  trace c = (trace h ++ library_log "message_handler" (result h))%list.
Proof.
  cbv zeta. unfold Bot.contained, Bot.try_except, Bot.log.
  destruct (result (Bot.message_handler rt sv ev w)) as [e|u] eqn:E;
    cbn [world_after trace library_log]; (split; [reflexivity|]).
  - reflexivity.
  - now rewrite app_nil_r.
Qed.

Lemma library_log_quiet (name : string) (r : res unit) :
  replies (library_log name r) = [] /\
  searches (library_log name r) = [] /\
  prompts (library_log name r) = [] /\
  begun (library_log name r) = 0%nat /\
  ended (library_log name r) = 0%nat.
Proof.
  destruct r; now repeat split.
Qed.

(** On a message that the pattern of [start] refuses the dispatch is the
    handler, with the log line of the library when the handler raises. *)
Lemma dispatch_query (ev : new_message) (w : world sv) :
  Bot.start_pattern (raw_text ev) = false ->
  let h := Bot.message_handler rt sv ev w in
  world_after (Bot.dispatch rt sv ev w) = world_after h /\
  trace (Bot.dispatch rt sv ev w)
  = (trace h ++ library_log "message_handler" (result h))%list.
Proof.
  intros Hs h. subst h.
  destruct (contained_handler ev w) as (Hw & Htr).
  cbv zeta in Hw, Htr.
  unfold Bot.dispatch. rewrite Hs.
  rewrite (bind_returns (Bot.ret sv tt) _ w tt eq_refl). cbv zeta.
  cbn [Bot.ret world_after trace app]. now split.
Qed.

(** The events of the guarded body: those of the query, then one of the
    three tails.  None of them begins or ends the typing action. *)
Lemma guarded_answer_events (ev : new_message) (w : world sv) :
  let b := Bot.try_except sv (Bot.answer rt sv ev) (Bot.apologise sv ev) w in
  existsb is_action (trace b) = false /\
  exists tail,
    tail_of ev tail /\
    trace b = (trace (Bot.process_query rt sv (text ev) w) ++ tail)%list.
Proof.
  cbv zeta. rewrite guarded_answer_run, answer_run. cbv zeta.
  destruct (pipeline_only _ (process_query_pipeline_only (text ev) w))
    as [_ Hact].
  destruct (result (Bot.process_query rt sv (text ev) w)) as [e|a];
    cbn [result world_after trace].
  - destruct (event_respond sv _ (chat_id ev) Bot.apology) as [w2 out].
    cbn [trace]. rewrite existsb_app, Hact. split; [reflexivity|].
    eexists. split; [apply (tail_failed ev e out) | reflexivity].
  - destruct (event_respond sv _ (chat_id ev) a) as [w2 [e|u]];
      cbn [result world_after trace].
    + destruct (event_respond sv w2 (chat_id ev) Bot.apology) as [w3 out].
      cbn [trace]. rewrite !existsb_app, Hact. split; [reflexivity|].
      eexists. split; [apply (tail_unsent ev a e out)|].
      now rewrite <- app_assoc.
    + rewrite existsb_app, Hact. split; [reflexivity|].
      eexists. split; [apply (tail_sent ev a u) | reflexivity].
Qed.

(** C7: the typing scope of [message_handler] and what runs inside it.  A
    command returns before the scope.  For any other message the scope is
    entered first, and once entered it is left, on the world the body left
    behind, however the body ends: after the answer, after the apology, and
    when the apology raises; the outcome of the handler is that of the body,
    or the exception of leaving the scope.  Inside the scope the query comes
    first, and it is made of the calls of the index and of the model alone:
    the first reply, the first point at which the handler awaits, comes after
    the whole query. *)
Theorem typing_scope (ev : new_message) (w : world sv) :
  (String.prefix "/" (text ev) = true ->
   Bot.message_handler rt sv ev w = Run w [] (inr tt)) /\
  (String.prefix "/" (text ev) = false ->
   match action_enter sv w (chat_id ev) "typing" with
   | (w1, inl e) =>
       Bot.message_handler rt sv ev w
       = Run w1 [received ev; EvActionEnter (chat_id ev) "typing" (inl e)]
             (inl e)
   | (w1, inr _) =>
       let p := Bot.process_query rt sv (text ev) w1 in
       let b := Bot.try_except sv (Bot.answer rt sv ev)
                  (Bot.apologise sv ev) w1 in
       match action_exit sv (world_after b) (chat_id ev) "typing" with
       | (w2, out2) =>
           Bot.message_handler rt sv ev w
           = Run w2
                 ([received ev;
                   EvActionEnter (chat_id ev) "typing" (inr tt)]
                  ++ trace b
                  ++ [EvActionExit (chat_id ev) "typing" out2])
                 match out2 with
                 | inl e => inl e
                 | inr _ => result b
                 end /\
           existsb is_action (trace b) = false /\
           forallb is_pipeline (trace p) = true /\
           exists tail,
             tail_of ev tail /\ trace b = (trace p ++ tail)%list
       end
   end).
Proof.
  split.
  - intros Hc. unfold Bot.message_handler. now rewrite Hc.
  - intros Hc. rewrite (message_handler_run _ _ Hc).
    destruct (action_enter sv w (chat_id ev) "typing") as [w1 [e|u]];
      [reflexivity|].
    cbv zeta.
    destruct (action_exit sv _ (chat_id ev) "typing") as [w2 out2].
    destruct (guarded_answer_events ev w1) as [Hact Htail].
    split; [reflexivity|]. split; [assumption|].
    split; [apply process_query_pipeline_only | assumption].
Qed.

(** C10 (amended): when the body of the [try] raises and the delivery of
    the apology raises in its turn, nothing in the handler catches that
    second exception.  The handler leaves the typing scope and raises: the
    exception of the apology when the scope is left without an exception, the
    exception of leaving the scope otherwise. *)
Theorem apology_failure_propagates (ev : new_message)
    (w w1 w2 w3 : world sv) (e e' : exn) (out3 : res unit) :
  String.prefix "/" (text ev) = false ->
  action_enter sv w (chat_id ev) "typing" = (w1, inr tt) ->
  result (Bot.answer rt sv ev w1) = inl e ->
  event_respond sv (world_after (Bot.answer rt sv ev w1)) (chat_id ev)
                Bot.apology = (w2, inl e') ->
  action_exit sv w2 (chat_id ev) "typing" = (w3, out3) ->
  let h := Bot.message_handler rt sv ev w in
  h = Run w3
          (received ev :: EvActionEnter (chat_id ev) "typing" (inr tt)
           :: trace (Bot.answer rt sv ev w1)
           ++ [failed ev e; EvRespond (chat_id ev) Bot.apology (inl e');
               EvActionExit (chat_id ev) "typing" out3])
          match out3 with
          | inl e3 => inl e3
          | inr _ => inl e'
          end /\
  (out3 = inr tt -> result h = inl e') /\
  (exists x, result h = inl x).
Proof.
  intros Hc Henter Hraise Hsend Hexit. cbv zeta.
  rewrite (message_handler_run _ _ Hc), Henter. cbv zeta.
  rewrite guarded_answer_run. cbv zeta. rewrite Hraise, Hsend.
  cbn [trace result world_after]. rewrite Hexit. rewrite <- app_assoc.
  split; [reflexivity|]. cbn [result]. split.
  - now intros ->.
  - destruct out3; eauto.
Qed.

Lemma session_two (ev1 ev2 : new_message) (w : world sv) :
  let d1 := Bot.dispatch rt sv ev1 w in
  let d2 := Bot.dispatch rt sv ev2 (world_after d1) in
  result (Bot.session rt sv [ev1; ev2] w) = inr tt /\
  trace (Bot.session rt sv [ev1; ev2] w) = (trace d1 ++ trace d2)%list.
Proof.
  cbv zeta. cbn [Bot.session].
  rewrite (bind_returns _ _ _ tt (dispatch_returns ev1 w)). cbv zeta.
  rewrite (bind_returns _ _ _ tt (dispatch_returns ev2 _)). cbv zeta.
  cbn [Bot.ret result trace world_after]. now rewrite app_nil_r.
Qed.

(** C6 (amended): an exception raised in the body of the [try] of
    [message_handler], by a retrieval call, by the formatting, by the model
    or by the delivery of the answer, is caught in the handler: the handler
    logs it and sends the fixed apology to the chat of the message.  The
    handler then leaves the typing scope, and it returns when the apology was
    delivered and the scope was left without an exception; an exception of
    the delivery of the apology, or of leaving the scope, is not caught and
    leaves the handler.  The session goes on either way: a later message
    that is a query, with no command in either of its texts, and that its
    services serve is answered. *)
Theorem handler_isolates_failure (ev : new_message) (w w1 : world sv)
    (e : exn) :
  String.prefix "/" (text ev) = false ->
  action_enter sv w (chat_id ev) "typing" = (w1, inr tt) ->
  result (Bot.answer rt sv ev w1) = inl e ->
  let a := Bot.answer rt sv ev w1 in
  let h := Bot.message_handler rt sv ev w in
  (exists w2 out w3 out3,
      event_respond sv (world_after a) (chat_id ev) Bot.apology = (w2, out) /\
      action_exit sv w2 (chat_id ev) "typing" = (w3, out3) /\
      h = Run w3
              (received ev :: EvActionEnter (chat_id ev) "typing" (inr tt)
               :: trace a
               ++ [failed ev e; EvRespond (chat_id ev) Bot.apology out;
                   EvActionExit (chat_id ev) "typing" out3])
              match out3 with
              | inl e3 => inl e3
              | inr _ => out
              end) /\
  (forall w2 w3,
      event_respond sv (world_after a) (chat_id ev) Bot.apology
      = (w2, inr tt) ->
      action_exit sv w2 (chat_id ev) "typing" = (w3, inr tt) ->
      result h = inr tt) /\
  (forall (ev2 : new_message) (wb wc : world sv) (answer2 : string),
      Bot.start_pattern (raw_text ev2) = false ->
      String.prefix "/" (text ev2) = false ->
      action_enter sv (world_after (Bot.dispatch rt sv ev w)) (chat_id ev2)
                   "typing" = (wb, inr tt) ->
      result (Bot.process_query rt sv (text ev2) wb) = inr answer2 ->
      event_respond sv (world_after (Bot.process_query rt sv (text ev2) wb))
                    (chat_id ev2) answer2 = (wc, inr tt) ->
      result (Bot.session rt sv [ev; ev2] w) = inr tt /\
      replies (trace (Bot.session rt sv [ev; ev2] w))
      = (replies (trace (Bot.dispatch rt sv ev w))
         ++ [(chat_id ev2, answer2)])%list).
Proof.
  intros Hc Henter Hraise. cbv zeta.
  assert (forall w2 out w3 out3,
             event_respond sv (world_after (Bot.answer rt sv ev w1))
                           (chat_id ev) Bot.apology = (w2, out) ->
             action_exit sv w2 (chat_id ev) "typing" = (w3, out3) ->
             Bot.message_handler rt sv ev w
             = Run w3
                   (received ev
                    :: EvActionEnter (chat_id ev) "typing" (inr tt)
                    :: trace (Bot.answer rt sv ev w1)
                    ++ [failed ev e; EvRespond (chat_id ev) Bot.apology out;
                        EvActionExit (chat_id ev) "typing" out3])
                   match out3 with
                   | inl e3 => inl e3
                   | inr _ => out
                   end) as Hcatch.
  { intros w2 out w3 out3 Hsend Hexit.
    rewrite (message_handler_run _ _ Hc), Henter. cbv zeta.
    rewrite guarded_answer_run. cbv zeta. rewrite Hraise, Hsend.
    cbn [trace result world_after]. rewrite Hexit.
    now rewrite <- app_assoc. }
  split; [|split].
  - destruct (event_respond sv (world_after (Bot.answer rt sv ev w1))
                            (chat_id ev) Bot.apology) as [w2 out] eqn:Hsend.
    destruct (action_exit sv w2 (chat_id ev) "typing") as [w3 out3] eqn:Hexit.
    exists w2, out, w3, out3.
    split; [reflexivity|]. split; [assumption|].
    exact (Hcatch w2 out w3 out3 eq_refl Hexit).
  - intros w2 w3 Hsend Hexit.
    now rewrite (Hcatch w2 (inr tt) w3 (inr tt) Hsend Hexit).
  - intros ev2 wb wc answer2 Hs2 Hc2 Henter2 Hanswer Hsend2.
    destruct (session_two ev ev2 w) as [Hres Htr]. cbv zeta in Htr.
    split; [exact Hres|]. rewrite Htr.
    destruct (dispatch_query ev2 (world_after (Bot.dispatch rt sv ev w)) Hs2)
      as (_ & Hd2).
    cbv zeta in Hd2. rewrite Hd2.
    pose proof (fun r => proj1 (library_log_quiet "message_handler" r))
      as Hlib.
    unfold replies in *. rewrite !collect_app, !Hlib.
    rewrite !app_nil_r. f_equal.
    fold (replies (trace (Bot.message_handler rt sv ev2
                            (world_after (Bot.dispatch rt sv ev w))))).
    rewrite (message_handler_replies _ _ _ Hc2 Henter2).
    rewrite guarded_answer_run, answer_run. cbv zeta.
    rewrite Hanswer, Hsend2. cbn [result trace].
    destruct (pipeline_only _ (process_query_pipeline_only (text ev2) wb))
      as [Hnone _]. unfold replies in *.
    rewrite !collect_app, Hnone. reflexivity.
Qed.

(** ** Commands *)

(** The [start] handler: the welcome, then its log line. *)
Lemma start_run (ev : new_message) (w : world sv) :
  Bot.contained sv "start" (Bot.start sv ev) w
  = match event_respond sv w (chat_id ev) Bot.welcome_message with
    | (w1, inl e) =>
        Run w1 [EvRespond (chat_id ev) Bot.welcome_message (inl e);
                EvLog "ERROR" "Unhandled exception on start"]
            (inr tt)
    | (w1, inr u) =>
        Run w1 [EvRespond (chat_id ev) Bot.welcome_message (inr u);
                EvLog "INFO" ("Started new session for chat_id: "
                              ++ string_of_Z (chat_id ev))]
            (inr tt)
    end.
Proof.
  unfold Bot.contained, Bot.try_except, Bot.start, Bot.bind, Bot.respond,
    Bot.log.
  destruct (event_respond sv w (chat_id ev) Bot.welcome_message)
    as [w1 [e|u]]; reflexivity.
Qed.

(** The dispatch of a message that the pattern of [start] accepts: the
    welcome and its log line, then the handler in the world that is left. *)
Lemma dispatch_start (ev : new_message) (w : world sv) :
  Bot.start_pattern (raw_text ev) = true ->
  exists w1 out level msg,
    event_respond sv w (chat_id ev) Bot.welcome_message = (w1, out) /\
    world_after (Bot.dispatch rt sv ev w)
    = world_after (Bot.message_handler rt sv ev w1) /\
    trace (Bot.dispatch rt sv ev w)
    = ([EvRespond (chat_id ev) Bot.welcome_message out; EvLog level msg]
       ++ trace (Bot.message_handler rt sv ev w1)
       ++ library_log "message_handler"
            (result (Bot.message_handler rt sv ev w1)))%list.
Proof.
  intros Hs. unfold Bot.dispatch. rewrite Hs.
  rewrite (bind_returns _ _ _ tt (contained_returns _ _ _)). cbv zeta.
  cbn [trace world_after]. rewrite start_run.
  destruct (event_respond sv w (chat_id ev) Bot.welcome_message)
    as [w1 [e|u]]; cbn [world_after trace];
    destruct (contained_handler ev w1) as (Hw & Htr);
    cbv zeta in Hw, Htr; rewrite Htr, Hw; do 4 eexists;
    (split; [reflexivity|]); (split; reflexivity).
Qed.

(** C4 (amended): a message whose text as sent begins with /start, the
    exact command among them, is sent the static welcome.  When its rendered
    text begins with a slash too, as it does when the message has no
    formatting, the welcome is its only reply and the query pipeline is not
    run for it.  A message whose rendered text begins with a slash and whose
    text as sent does not begin with /start gets no reply, and nothing is
    done for it.  A message whose rendered text does not begin with a slash
    is handled as a query, after the welcome when its text as sent begins
    with /start. *)
Theorem dispatch_commands (ev : new_message) (w : world sv) :
  let d := Bot.dispatch rt sv ev w in
  (Bot.start_pattern (raw_text ev) = true ->
   String.prefix "/" (text ev) = true ->
   replies (trace d) = [(chat_id ev, Bot.welcome_message)] /\
   searches (trace d) = [] /\
   prompts (trace d) = [] /\
   existsb is_action (trace d) = false) /\
  (raw_text ev = "/start" -> Bot.start_pattern (raw_text ev) = true) /\
  (text ev = raw_text ev ->
   Bot.start_pattern (raw_text ev) = true ->
   String.prefix "/" (text ev) = true) /\
  (String.prefix "/" (text ev) = true ->
   Bot.start_pattern (raw_text ev) = false ->
   trace d = []) /\
  (String.prefix "/" (text ev) = false ->
   exists w1 before,
     trace d
     = (before ++ trace (Bot.message_handler rt sv ev w1)
        ++ library_log "message_handler"
             (result (Bot.message_handler rt sv ev w1)))%list /\
     (Bot.start_pattern (raw_text ev) = true ->
      replies before = [(chat_id ev, Bot.welcome_message)]) /\
     (Bot.start_pattern (raw_text ev) = false -> before = [] /\ w1 = w) /\
     exists rest,
       trace (Bot.message_handler rt sv ev w1) = received ev :: rest).
Proof.
  cbv zeta. split; [|split; [|split; [|split]]].
  - intros Hs Hc.
    destruct (dispatch_start ev w Hs)
      as (w1 & out & level & msg & _ & _ & ->).
    assert (Bot.message_handler rt sv ev w1 = Run w1 [] (inr tt)) as ->
      by (unfold Bot.message_handler; now rewrite Hc).
    now repeat split.
  - intros ->. reflexivity.
  - intros Heq Hs. rewrite Heq. now apply start_pattern_command.
  - intros Hc Hs. rewrite (proj2 (dispatch_query ev w Hs)).
    unfold Bot.message_handler. rewrite Hc. reflexivity.
  - intros Hc.
    assert (forall w1, exists rest,
               trace (Bot.message_handler rt sv ev w1) = received ev :: rest)
      as Hrest.
    { intros w1. rewrite (message_handler_run _ _ Hc).
      destruct (action_enter sv w1 (chat_id ev) "typing") as [w2 [e|u]];
        [now eexists|]. cbv zeta.
      destruct (action_exit sv _ (chat_id ev) "typing") as [w3 out3].
      now eexists. }
    destruct (Bot.start_pattern (raw_text ev)) eqn:Hs.
    + destruct (dispatch_start ev w Hs)
        as (w1 & out & level & msg & _ & _ & Htr).
      exists w1. eexists. split; [exact Htr|].
      split; [reflexivity|]. split; [discriminate | apply Hrest].
    + exists w, []. split; [exact (proj2 (dispatch_query ev w Hs))|].
      split; [discriminate|]. split; [now split | apply Hrest].
Qed.

(** ** The context and the prompt *)

Lemma format_results_block (results : pyval) :
  format_results rt results = block_of rt (hits_of results).
Proof.
  reflexivity.
Qed.

(** The loop returns the blocks of the hit sequences it was given, after
    those it started with, and fails as their assembly fails. *)
Lemma retrieve_all_blocks (q : string) (nss : list string) :
  forall acc w,
    let r := Bot.retrieve_all rt sv q nss acc w in
    match result r with
    | inr l => exists blocks,
        blocks_of rt (hit_seqs (trace r)) = inr blocks /\
        l = (acc ++ blocks)%list
    | inl e => blocks_of rt (hit_seqs (trace r)) = inl e
    end.
Proof.
  induction nss as [|ns rest IH]; intros acc w; cbv zeta.
  - cbn. exists []. now rewrite app_nil_r.
  - rewrite retrieve_all_cons.
    destruct (index_search sv w ns 5 q) as [w1 [e|results]];
      [reflexivity|].
    rewrite format_results_block.
    destruct (block_of rt (hits_of results)) as [e|formatted] eqn:Hb.
    { cbn. now rewrite Hb. }
    specialize (IH (acc ++ [formatted])%list w1). cbv zeta in IH.
    cbn [result trace].
    change (hit_seqs (EvSearch ns 5 q (inr results) :: ?t))
      with (hits_of results :: hit_seqs t).
    cbn [blocks_of]. rewrite Hb. cbn [rbind].
    destruct (result (Bot.retrieve_all rt sv q rest _ w1)) as [e|l].
    + now rewrite IH.
    + destruct IH as (blocks & -> & ->). exists (formatted :: blocks).
      split; [reflexivity|]. now rewrite <- app_assoc.
Qed.

(** The prompt of a query is a function of the query and of the hit
    sequences: no prompt when their assembly fails. *)
Lemma process_query_prompt (q : string) (w : world sv) :
  let r := Bot.process_query rt sv q w in
  prompts (trace r)
  = match assemble rt (hit_seqs (trace r)) with
    | inr context => [system_prompt q context]
    | inl _ => []
    end.
Proof.
  cbv zeta. rewrite process_query_run. cbv zeta.
  pose proof (retrieve_all_blocks q Bot.namespaces [] w) as Hb.
  pose proof (retrieve_all_only_searches q Bot.namespaces [] w) as Honly.
  apply searches_only in Honly as [Hp _]. cbv zeta in Hb.
  destruct (result (Bot.retrieve_all rt sv q Bot.namespaces [] w))
    as [e|l].
  - cbn [trace]. unfold assemble. now rewrite Hb, Hp.
  - destruct Hb as (blocks & Hb & ->).
    destruct (model_generate sv _ _) as [w2 out]. cbn [trace].
    match goal with
    | |- prompts (?tr ++ [?g])%list = _ =>
        assert (hit_seqs (tr ++ [g]) = hit_seqs tr) as ->
          by (unfold hit_seqs; rewrite collect_app; apply app_nil_r);
        assert (prompts (tr ++ [g])
                = [system_prompt q (String.concat nl ([] ++ blocks))]) as ->
          by (unfold prompts in *; rewrite collect_app, Hp; reflexivity)
    end.
    unfold assemble. now rewrite Hb.
Qed.

(** C9: when the three namespaces return no hit, the context is the join
    of three empty blocks, two newlines, and the query goes on as ever: the
    prompt is built from the query and that context and sent to the model,
    whose outcome is the outcome of the query. *)
Theorem empty_retrieval_still_generates (q : string)
    (w w1 w2 w3 : world sv) (r1 r2 r3 : pyval) :
  index_search sv w "key_words" 5 q = (w1, inr r1) ->
  hits_of r1 = inr [] ->
  index_search sv w1 "general_text" 5 q = (w2, inr r2) ->
  hits_of r2 = inr [] ->
  index_search sv w2 "tables" 5 q = (w3, inr r3) ->
  hits_of r3 = inr [] ->
  let context := String.concat nl [""; ""; ""] in
  let prompt := system_prompt q context in
  context = nl ++ nl /\
  match model_generate sv w3 prompt with
  | (w4, out) =>
      Bot.process_query rt sv q w
      = Run w4 [EvSearch "key_words" 5 q (inr r1);
                EvSearch "general_text" 5 q (inr r2);
                EvSearch "tables" 5 q (inr r3);
                EvGenerate prompt out] out
  end.
Proof.
  intros H1 E1 H2 E2 H3 E3. cbv zeta. split; [reflexivity|].
  rewrite process_query_run. cbv zeta. unfold Bot.namespaces.
  rewrite retrieve_all_cons, H1, format_results_block, E1. cbn [block_of rbind format_hits rret String.concat].
  cbv zeta.
  rewrite retrieve_all_cons, H2, format_results_block, E2. cbn [block_of rbind format_hits rret String.concat].
  cbv zeta.
  rewrite retrieve_all_cons, H3, format_results_block, E3. cbn [block_of rbind format_hits rret String.concat].
  cbv zeta. cbn [Bot.retrieve_all Bot.ret result trace world_after app].
  destruct (model_generate sv w3 _) as [w4 out]. reflexivity.
Qed.

End Pipeline.

(** C8: context assembly and prompt construction are functions of their
    inputs alone.  Two runs of a query, in any two worlds, that are given the
    same hit sequences by their retrieval calls assemble the same context and
    send the same prompt; the prompt is [system_prompt] of the query and of
    the context assembled from the hit sequences. *)
Theorem assembly_deterministic (rt : runtime) (sv sv' : services)
    (q : string) (w : world sv) (w' : world sv') :
  let r := Bot.process_query rt sv q w in
  let r' := Bot.process_query rt sv' q w' in
  hit_seqs (trace r) = hit_seqs (trace r') ->
  assemble rt (hit_seqs (trace r)) = assemble rt (hit_seqs (trace r')) /\
  prompts (trace r) = prompts (trace r') /\
  prompts (trace r)
  = match assemble rt (hit_seqs (trace r)) with
    | inr context => [system_prompt q context]
    | inl _ => []
    end.
Proof.
  cbv zeta. intros Hsame.
  pose proof (process_query_prompt rt sv q w) as Hp.
  pose proof (process_query_prompt rt sv' q w') as Hp'.
  cbv zeta in Hp, Hp'.
  split; [now rewrite Hsame|]. split; [|exact Hp].
  rewrite Hp, Hp', Hsame. reflexivity.
Qed.

(** ** The properties at work on the sample worlds *)

Lemma assembly_deterministic_witness :
  prompts (trace (Bot.process_query rt0 sv_ok (text question) tt))
  = prompts (trace (Bot.process_query rt0 sv_flaky (text question) 0%nat)).
Proof.
  exact (proj1 (proj2 (assembly_deterministic rt0 sv_ok sv_flaky
                         (text question) tt 0%nat eq_refl))).
Defined.

(** Against C1 as stated: when the index cannot be reached the first
    retrieval call is the only one. *)
Lemma one_call_when_index_fails :
  searches (trace (Bot.process_query rt0 sv_no_index (text question) tt))
  = [("key_words", 5, text question)] /\
  searches (trace (Bot.process_query rt0 sv_no_index (text question) tt))
  <> expected_searches (text question).
Proof.
  split; [reflexivity | discriminate].
Qed.

(** Against C4 as stated: /startup begins with a slash and is not the
    command /start, and it is answered with the welcome. *)
Lemma startup_gets_welcome :
  String.prefix "/" "/startup" = true /\
  "/startup" <> "/start" /\
  replies (trace (Bot.dispatch rt0 sv_ok
                    (NewMessage "/startup" "/startup" 7) tt))
  = [(7, Bot.welcome_message)].
Proof.
  split; [reflexivity|]. split; [discriminate | reflexivity].
Qed.

(** The command /start in bold is sent the welcome and is answered as a
    query as well. *)
Lemma bold_start_is_answered :
  replies (trace (Bot.dispatch rt0 sv_ok bold_start tt))
  = [(7, Bot.welcome_message); (7, "Plants turn light into sugar.")].
Proof.
  reflexivity.
Qed.

Lemma failed_retrieval_fails_query_witness :
  result (Bot.process_query rt0 sv_no_tables (text question) tt)
  = inl RetrievalError /\
  prompts (trace (Bot.process_query rt0 sv_no_tables (text question) tt))
  = [] /\
  replies (trace (Bot.message_handler rt0 sv_no_tables question tt))
  = [(7, Bot.apology)].
Proof.
  pose proof (failed_retrieval_fails_query rt0 sv_no_tables question tt tt
                "tables" 5 (text question) RetrievalError
                (or_intror (or_intror (or_introl eq_refl))))
    as (Hres & Hprompts & _ & Hreplies).
  split; [exact Hres|]. split; [exact Hprompts|].
  exact (Hreplies eq_refl eq_refl).
Defined.

(** Against C5 as stated: the results are assembled inside the loop, each
    one before the next namespace is searched.  With a garbled result from
    general_text and an index that is down for tables, the query fails in the
    assembly of what general_text returned, and tables is never searched. *)
Lemma assembly_before_next_search :
  index_search sv_jam tt "tables" 5 (text question) = (tt, inl RetrievalError)
  /\
  result (Bot.process_query rt0 sv_jam (text question) tt)
  = inl (AttributeError (PStr "bio-17") "get") /\
  searches (trace (Bot.process_query rt0 sv_jam (text question) tt))
  = [("key_words", 5, text question); ("general_text", 5, text question)].
Proof.
  repeat split.
Qed.

Lemma handler_isolates_failure_witness :
  result (Bot.message_handler rt0 sv_flaky question 0%nat) = inr tt /\
  replies (trace (Bot.session rt0 sv_flaky [question; question2] 0%nat))
  = [(7, Bot.apology); (8, "Plants turn light into sugar.")].
Proof.
  pose proof (handler_isolates_failure rt0 sv_flaky question 0%nat 0%nat
                GenerationError eq_refl eq_refl eq_refl)
    as (_ & Hreturns & Hnext).
  split.
  - exact (Hreturns 1%nat 1%nat eq_refl eq_refl).
  - exact (proj2 (Hnext question2 1%nat 2%nat "Plants turn light into sugar."
                    eq_refl eq_refl eq_refl eq_refl eq_refl)).
Defined.

(** Against C6 as stated: when no reply can be delivered, the exception of
    the delivery of the answer is caught, and the exception of the delivery
    of the apology leaves the handler. *)
Lemma undelivered_apology_leaves_handler :
  In (EvRespond 7 "Plants turn light into sugar." (inl DispatchError))
     (trace (Bot.message_handler rt0 sv_deaf question tt)) /\
  In (EvRespond 7 Bot.apology (inl DispatchError))
     (trace (Bot.message_handler rt0 sv_deaf question tt)) /\
  result (Bot.message_handler rt0 sv_deaf question tt) = inl DispatchError.
Proof.
  repeat split; cbv; tauto.
Qed.

Lemma apology_failure_propagates_witness :
  result (Bot.message_handler rt0 sv_mute question tt) = inl DispatchError.
Proof.
  exact (proj1 (proj2 (apology_failure_propagates rt0 sv_mute question
                         tt tt tt tt GenerationError DispatchError (inr tt)
                         eq_refl eq_refl eq_refl eq_refl eq_refl))
           eq_refl).
Defined.

(** Against C10 as stated: when leaving the typing scope raises as well,
    the exception of the apology is not the one that leaves the handler. *)
Lemma apology_failure_replaced :
  In (EvRespond 7 Bot.apology (inl DispatchError))
     (trace (Bot.message_handler rt0 sv_stuck question tt)) /\
  result (Bot.message_handler rt0 sv_stuck question tt) = inl TypingError /\
  TypingError <> DispatchError.
Proof.
  split; [cbv; tauto|]. split; [reflexivity | discriminate].
Qed.

Lemma empty_retrieval_still_generates_witness :
  Bot.process_query rt0 sv_empty (text question) tt
  = Run tt [EvSearch "key_words" 5 (text question) (inr (response_of []));
            EvSearch "general_text" 5 (text question) (inr (response_of []));
            EvSearch "tables" 5 (text question) (inr (response_of []));
            EvGenerate (system_prompt (text question) (nl ++ nl))
              (inr "Im sorry, there isnt a suitale answer to your question in the book.")]
        (inr "Im sorry, there isnt a suitale answer to your question in the book.").
Proof.
  exact (proj2 (empty_retrieval_still_generates rt0 sv_empty (text question)
                  tt tt tt tt (response_of []) (response_of [])
                  (response_of [])
                  eq_refl eq_refl eq_refl eq_refl eq_refl eq_refl)).
Defined.

(** * Further properties *)

(** ** Rounding of a score *)

(** X1: [round(f, 2)] takes a float to the nearest hundredth: the value in
    hundredths is exact for an integral float, and otherwise within half a
    hundredth of the float, the even one of the two when the float is halfway
    between them. *)
Theorem hundredths_nearest (m : positive) (e : Z) :
  (0 <= e -> hundredths m e = Z.pos m * 2 ^ e * 100) /\
  (e < 0 ->
   let d := 2 ^ (- e) in
   let k := hundredths m e in
   2 * Z.abs (k * d - Z.pos m * 100) <= d /\
   (2 * Z.abs (k * d - Z.pos m * 100) = d -> Z.even k = true)).
Proof.
  unfold hundredths. split.
  - intros He. apply Z.leb_le in He. now rewrite He.
  - intros He. cbv zeta.
    assert ((0 <=? e) = false) as -> by (apply Z.leb_gt; lia).
    assert (0 < 2 ^ (- e)) as Hd by (apply Z.pow_pos_nonneg; lia).
    unfold half_even.
    pose proof (Z.div_mod (Z.pos m * 100) (2 ^ (- e))) as Hdm.
    pose proof (Z.mod_pos_bound (Z.pos m * 100) (2 ^ (- e)) Hd) as Hr.
    set (d := 2 ^ (- e)) in *. set (n := Z.pos m * 100) in *.
    set (q := n / d) in *. set (r := n mod d) in *.
    assert (n = d * q + r) as Hn by (apply Hdm; lia).
    destruct (2 * r <? d) eqn:H1.
    { apply Z.ltb_lt in H1. split; [nia|]. intros H. exfalso. nia. }
    apply Z.ltb_ge in H1.
    destruct (d <? 2 * r) eqn:H2.
    { apply Z.ltb_lt in H2. split; [nia|]. intros H. exfalso. nia. }
    apply Z.ltb_ge in H2.
    destruct (Z.even q) eqn:Hq.
    + split; [nia|]. intros _. exact Hq.
    + split; [nia|]. intros _.
      rewrite Z.even_add, Hq. reflexivity.
Qed.

(** ** Malformed hits and responses *)

(** X2: a hit that is a dict is assembled without an exception exactly when
    its score, if present, is a number and its [fields], if present, is a
    dict. *)
Theorem format_hit_succeeds_iff (rt : runtime) (d : list (string * pyval)) :
  (exists block, format_hit rt (PDict d) = inr block) <-> well_formed_hit d.
Proof.
  unfold well_formed_hit, format_hit. rewrite !lookup_get. cbn [rbind].
  destruct (lookup "_score" d) as [sc|];
    [destruct sc|]; cbn [round2_text rbind rraise rret is_number];
    (destruct (lookup "fields" d) as [fv|];
     [destruct fv|]; cbn [py_get rbind rraise is_dict]);
    repeat match goal with
           | |- context [lookup ?k ?l] => destruct (lookup k l)
           end; cbn [rbind rret];
    (split; [intros [block H]; try discriminate H; now split
            |intros [H1 H2]; try discriminate H1; try discriminate H2;
             eexists; reflexivity]).
Qed.

(** X3: what a malformed hit raises.  A hit that is not a dict has no
    [get]; a score that is not a number cannot be rounded, and that is found
    before [fields] is looked at; with a good score, a [fields] that is not a
    dict has no [get]. *)
Theorem format_hit_errors (rt : runtime) :
  (forall hit, is_dict hit = false ->
               format_hit rt hit = inl (AttributeError hit "get")) /\
  (forall d score,
      lookup "_score" d = Some score -> is_number score = false ->
      format_hit rt (PDict d) = inl (NoRound score)) /\
  (forall d fields,
      match lookup "_score" d with
      | Some v => is_number v = true
      | None => True
      end ->
      lookup "fields" d = Some fields -> is_dict fields = false ->
      format_hit rt (PDict d) = inl (AttributeError fields "get")).
Proof.
  split; [|split].
  - intros hit H. destruct hit; try discriminate H; reflexivity.
  - intros d score E H. unfold format_hit. rewrite !lookup_get, E.
    cbn [rbind]. destruct score; try discriminate H; reflexivity.
  - intros d fields Hs E H. unfold format_hit. rewrite !lookup_get, E.
    cbn [rbind].
    destruct (lookup "_score" d) as [sc|];
      [destruct sc; try discriminate Hs|]; cbn [round2_text rbind rret];
      destruct fields; try discriminate H; reflexivity.
Qed.

(** X4: the blocks of a namespace are the blocks of its hits, one for each
    hit and in the order of retrieval; the formatting of the hits succeeds
    exactly when the formatting of every hit does. *)
Theorem format_hits_blocks (rt : runtime) (hits : list pyval)
    (blocks : list string) :
  format_hits rt hits = inr blocks
  <-> Forall2 (fun hit block => format_hit rt hit = inr block) hits blocks.
Proof.
  revert blocks. induction hits as [|hit rest IH]; intros blocks; cbn.
  - split.
    + intros H. injection H as <-. constructor.
    + intros H. inversion H. reflexivity.
  - destruct (format_hit rt hit) as [e|block] eqn:Hh; cbn.
    + split; [discriminate|]. intros H. inversion H; subst. congruence.
    + destruct (format_hits rt rest) as [e|bs] eqn:Hr; cbn.
      * split; [discriminate|]. intros H. inversion H; subst.
        match goal with
        | H' : Forall2 _ rest _ |- _ => apply IH in H'; discriminate H'
        end.
      * split.
        -- intros H. injection H as <-. constructor; [assumption|].
           now apply IH.
        -- intros H. inversion H; subst.
           match goal with
           | H' : Forall2 _ rest _ |- _ => apply IH in H'
           end.
           unfold rret. congruence.
Qed.

(** X5: the first hit that cannot be formatted decides the outcome of the
    namespace: its exception is raised, whatever the hits after it. *)
Theorem format_hits_first_failure (rt : runtime)
    (good : list pyval) (blocks : list string) (bad : pyval) (e : exn)
    (rest : list pyval) :
  format_hits rt good = inr blocks ->
  format_hit rt bad = inl e ->
  format_hits rt (good ++ bad :: rest) = inl e.
Proof.
  revert blocks. induction good as [|hit good IH]; intros blocks Hg Hb; cbn.
  - now rewrite Hb.
  - cbn in Hg. destruct (format_hit rt hit) as [e0|block]; [discriminate|].
    cbn in *. destruct (format_hits rt good) as [e0|bs]; [discriminate|].
    now rewrite (IH bs eq_refl Hb).
Qed.

(** X6: a response without a [result], or whose [result] has no [hits], is
    read as a namespace without a hit: its block is the empty string. *)
Theorem missing_hits_is_no_hit (rt : runtime) (d : list (string * pyval)) :
  (lookup "result" d = None -> format_results rt (PDict d) = inr "") /\
  (forall r, lookup "result" d = Some (PDict r) -> lookup "hits" r = None ->
             format_results rt (PDict d) = inr "").
Proof.
  unfold format_results, hits_of. rewrite lookup_get. split.
  - intros ->. reflexivity.
  - intros r -> Hh. cbn [rbind]. rewrite lookup_get, Hh. reflexivity.
Qed.

(** X7: a response of the wrong shape is not read as a namespace without
    a hit: a response or a [result] that is not a dict has no [get], and
    [hits] that cannot be iterated raise a [TypeError]. *)
Theorem malformed_response_raises (rt : runtime) :
  (forall v, is_dict v = false ->
             format_results rt v = inl (AttributeError v "get")) /\
  (forall d v, lookup "result" d = Some v -> is_dict v = false ->
               format_results rt (PDict d) = inl (AttributeError v "get")) /\
  (forall d r v, lookup "result" d = Some (PDict r) ->
                 lookup "hits" r = Some v -> not_iterable v = true ->
                 format_results rt (PDict d) = inl (NotIterable v)).
Proof.
  unfold format_results, hits_of. split; [|split].
  - intros v H. destruct v; try discriminate H; reflexivity.
  - intros d v E H. rewrite lookup_get, E. cbn [rbind].
    destruct v; try discriminate H; reflexivity.
  - intros d r v E Eh H. rewrite lookup_get, E. cbn [rbind].
    rewrite lookup_get, Eh. cbn [rbind].
    destruct v; try discriminate H; reflexivity.
Qed.

(** ** The size of the prompt *)

(** X8: the prompt holds the query twice and the context once, whole: its
    length is that of the fixed text, 1570 characters, with twice the length
    of the query and the length of the context.  Nothing is cut. *)
Theorem prompt_length (query contents : string) :
  String.length (system_prompt query contents)
  = (1570 + 2 * String.length query + String.length contents)%nat.
Proof.
  unfold system_prompt. rewrite !string_length_app.
  change (String.length prompt_head) with 291%nat.
  change (String.length prompt_context) with 190%nat.
  change (String.length prompt_rules) with 391%nat.
  change (String.length prompt_tail) with 698%nat.
  lia.
Qed.

(** ** The outcome of a query *)

Section More.

Variable rt : runtime.
Variable sv : services.

Lemma only_searches_no_generate (tr : list event) (p : string)
    (out : res string) :
  forallb is_search tr = true -> ~ In (EvGenerate p out) tr.
Proof.
  intros H Hin. rewrite forallb_forall in H.
  specialize (H _ Hin). discriminate H.
Qed.

(** X9: when the model is called, the outcome of that call is the outcome
    of the query, the answer unchanged or the exception, and the call is the
    last thing the query does, after retrieval calls only. *)
Theorem model_outcome_is_query_outcome (q : string) (w : world sv)
    (p : string) (out : res string) :
  let r := Bot.process_query rt sv q w in
  In (EvGenerate p out) (trace r) ->
  result r = out /\
  exists before,
    trace r = (before ++ [EvGenerate p out])%list /\
    forallb is_search before = true.
Proof.
  cbv zeta. rewrite process_query_run. cbv zeta.
  pose proof (retrieve_all_only_searches rt sv q Bot.namespaces [] w) as Honly.
  destruct (result (Bot.retrieve_all rt sv q Bot.namespaces [] w))
    as [e|all_contexts].
  - cbn [trace]. intros Hin.
    now apply only_searches_no_generate in Hin.
  - destruct (model_generate sv _ _) as [w2 out0]. cbn [trace result].
    intros Hin. apply in_app_or in Hin as [Hin|[Hin|[]]].
    + now apply only_searches_no_generate in Hin.
    + injection Hin as <- <-. split; [reflexivity|]. eexists. now split.
Qed.

(** X10: when the three retrieval calls return and their results are
    formatted, the context is the three blocks in the order of the
    namespaces, a newline between them, whatever the order of the hits in
    relevance across namespaces; the query is the three calls, then the call
    of the model on the prompt of that context. *)
Theorem context_in_namespace_order (q : string) (w w1 w2 w3 : world sv)
    (r1 r2 r3 : pyval) (b1 b2 b3 : string) :
  index_search sv w "key_words" 5 q = (w1, inr r1) ->
  format_results rt r1 = inr b1 ->
  index_search sv w1 "general_text" 5 q = (w2, inr r2) ->
  format_results rt r2 = inr b2 ->
  index_search sv w2 "tables" 5 q = (w3, inr r3) ->
  format_results rt r3 = inr b3 ->
  let prompt := system_prompt q (b1 ++ nl ++ b2 ++ nl ++ b3) in
  match model_generate sv w3 prompt with
  | (w4, out) =>
      Bot.process_query rt sv q w
      = Run w4 [EvSearch "key_words" 5 q (inr r1);
                EvSearch "general_text" 5 q (inr r2);
                EvSearch "tables" 5 q (inr r3);
                EvGenerate prompt out] out
  end.
Proof.
  intros H1 E1 H2 E2 H3 E3. cbv zeta.
  rewrite process_query_run. cbv zeta. unfold Bot.namespaces.
  rewrite retrieve_all_cons, H1, E1. cbv zeta.
  rewrite retrieve_all_cons, H2, E2. cbv zeta.
  rewrite retrieve_all_cons, H3, E3. cbv zeta.
  cbn [Bot.retrieve_all Bot.ret result trace world_after app String.concat].
  destruct (model_generate sv w3 _) as [w4 out]. reflexivity.
Qed.

(** X11: a result that cannot be formatted fails the query on the spot,
    with the exception of the formatting: the call that returned it is the
    last event of the query, so that the namespaces after it are not searched
    and the model is not called. *)
Theorem unformattable_result_stops_query (q : string) (w : world sv)
    (ns : string) (k : Z) (q' : string) (results : pyval) (e : exn) :
  let r := Bot.process_query rt sv q w in
  In (EvSearch ns k q' (inr results)) (trace r) ->
  format_results rt results = inl e ->
  result r = inl e /\
  prompts (trace r) = [] /\
  exists before,
    trace r = (before ++ [EvSearch ns k q' (inr results)])%list.
Proof.
  cbv zeta. intros Hin Hf.
  destruct (process_query_stops rt sv q w ns k q' (inr results) e Hin Hf)
    as (Hres & Honly & Hb).
  split; [assumption|]. split; [|assumption].
  now apply searches_only in Honly.
Qed.

(** The cost of a query: at most three retrieval calls and one call of
    the model. *)
Lemma process_query_cost (q : string) (w : world sv) :
  let r := Bot.process_query rt sv q w in
  (List.length (searches (trace r)) <= 3)%nat /\
  (List.length (prompts (trace r)) <= 1)%nat.
Proof.
  cbv zeta. rewrite process_query_run. cbv zeta.
  destruct (retrieve_all_searches rt sv q Bot.namespaces [] w)
    as (n & Hn & _ & Hs & _). cbv zeta in Hs.
  pose proof (retrieve_all_only_searches rt sv q Bot.namespaces [] w) as Honly.
  apply searches_only in Honly as [Hp _].
  assert (List.length
            (searches (trace (Bot.retrieve_all rt sv q Bot.namespaces [] w)))
          <= 3)%nat as Hlen.
  { rewrite Hs. etransitivity; [apply firstn_le_length|exact Hn]. }
  destruct (result (Bot.retrieve_all rt sv q Bot.namespaces [] w)).
  - cbn [trace]. rewrite Hp. split; [exact Hlen | cbn; lia].
  - destruct (model_generate sv _ _) as [w2 out]. cbn [trace].
    unfold searches, prompts in *. rewrite !collect_app, Hp.
    cbn [collect app]. rewrite app_nil_r. split; [exact Hlen | cbn; lia].
Qed.

(** ** The replies of the handler *)

(** X12: when the query returns an answer and the reply is delivered, the
    handler sends the answer as it is, once, to the chat of the message, logs
    the delivery and leaves the typing scope; it returns, unless leaving the
    scope raises. *)
Theorem handler_delivers_answer (ev : new_message) (w w1 w2 w3 : world sv)
    (a : string) (out3 : res unit) :
  String.prefix "/" (text ev) = false ->
  action_enter sv w (chat_id ev) "typing" = (w1, inr tt) ->
  let p := Bot.process_query rt sv (text ev) w1 in
  result p = inr a ->
  event_respond sv (world_after p) (chat_id ev) a = (w2, inr tt) ->
  action_exit sv w2 (chat_id ev) "typing" = (w3, out3) ->
  Bot.message_handler rt sv ev w
  = Run w3
        (received ev :: EvActionEnter (chat_id ev) "typing" (inr tt)
         :: trace p
         ++ [EvRespond (chat_id ev) a (inr tt); sent ev;
             EvActionExit (chat_id ev) "typing" out3])
        match out3 with
        | inl e => inl e
        | inr _ => inr tt
        end /\
  replies (trace (Bot.message_handler rt sv ev w)) = [(chat_id ev, a)].
Proof.
  intros Hc Henter p Hp Hsend Hexit. subst p.
  assert (Bot.message_handler rt sv ev w
          = Run w3
                (received ev :: EvActionEnter (chat_id ev) "typing" (inr tt)
                 :: trace (Bot.process_query rt sv (text ev) w1)
                 ++ [EvRespond (chat_id ev) a (inr tt); sent ev;
                     EvActionExit (chat_id ev) "typing" out3])
                match out3 with
                | inl e => inl e
                | inr _ => inr tt
                end) as Hrun.
  { rewrite (message_handler_run _ _ _ _ Hc), Henter. cbv zeta.
    rewrite guarded_answer_run, answer_run. cbv zeta.
    rewrite Hp, Hsend. cbn [result trace world_after]. rewrite Hexit.
    rewrite <- app_assoc. reflexivity. }
  split; [exact Hrun|]. rewrite Hrun. cbn [trace].
  destruct (pipeline_only _ (process_query_pipeline_only rt sv (text ev) w1))
    as [Hnone _].
  unfold replies in *. cbn. now rewrite collect_app, Hnone.
Qed.

(** X13: when the query returns an answer and its delivery raises, the
    handler logs that exception and then sends the apology: two replies are
    attempted for the message, the answer and then the apology.  The outcome
    of the handler is that of the second, unless leaving the typing scope
    raises. *)
Theorem undelivered_answer_then_apology (ev : new_message)
    (w w1 w2 w3 w4 : world sv) (a : string) (e : exn)
    (out out4 : res unit) :
  String.prefix "/" (text ev) = false ->
  action_enter sv w (chat_id ev) "typing" = (w1, inr tt) ->
  let p := Bot.process_query rt sv (text ev) w1 in
  result p = inr a ->
  event_respond sv (world_after p) (chat_id ev) a = (w2, inl e) ->
  event_respond sv w2 (chat_id ev) Bot.apology = (w3, out) ->
  action_exit sv w3 (chat_id ev) "typing" = (w4, out4) ->
  let h := Bot.message_handler rt sv ev w in
  replies (trace h) = [(chat_id ev, a); (chat_id ev, Bot.apology)] /\
  In (failed ev e) (trace h) /\
  result h = match out4 with
             | inl e4 => inl e4
             | inr _ => out
             end.
Proof.
  intros Hc Henter p Hp Hsend Hsorry Hexit. subst p. cbv zeta.
  rewrite (message_handler_run _ _ _ _ Hc), Henter. cbv zeta.
  rewrite guarded_answer_run, answer_run. cbv zeta.
  rewrite Hp, Hsend. cbn [result trace world_after]. rewrite Hsorry.
  cbn [result trace world_after]. rewrite Hexit. cbn [result trace].
  destruct (pipeline_only _ (process_query_pipeline_only rt sv (text ev) w1))
    as [Hnone _].
  split; [|split; [|reflexivity]].
  - unfold replies in *. cbn. now rewrite !collect_app, Hnone.
  - right. right. rewrite <- !app_assoc. apply in_or_app. right.
    cbn. tauto.
Qed.

(** ** Sessions *)

Lemma pipeline_quiet (tr : list event) :
  forallb is_pipeline tr = true -> begun tr = 0%nat /\ ended tr = 0%nat.
Proof.
  unfold begun, ended. induction tr as [|ev tr IH]; [now split|].
  cbn. intros H. apply andb_true_iff in H as [Hev Htr].
  destruct ev; try discriminate; now apply IH.
Qed.

(** The traces of the handler: nothing for a command; the log line and the
    failed start of the typing action; or the query inside the typing action,
    followed by one of the three tails. *)
Lemma message_handler_shape (ev : new_message) (w : world sv) :
  let h := Bot.message_handler rt sv ev w in
  (String.prefix "/" (text ev) = true /\ trace h = []) \/
  (String.prefix "/" (text ev) = false /\
   ((exists e,
        trace h = [received ev; EvActionEnter (chat_id ev) "typing" (inl e)])
    \/
    (exists w1 tail out,
        tail_of ev tail /\
        trace h
        = (received ev :: EvActionEnter (chat_id ev) "typing" (inr tt)
           :: trace (Bot.process_query rt sv (text ev) w1)
           ++ tail ++ [EvActionExit (chat_id ev) "typing" out])%list))).
Proof.
  cbv zeta. destruct (String.prefix "/" (text ev)) eqn:Hc.
  - left. split; [reflexivity|]. unfold Bot.message_handler. now rewrite Hc.
  - right. split; [reflexivity|].
    rewrite (message_handler_run _ _ _ _ Hc).
    destruct (action_enter sv w (chat_id ev) "typing") as [w1 [e|u]].
    + left. now exists e.
    + right. exists w1. cbv zeta.
      destruct (guarded_answer_events rt sv ev w1) as (_ & tail & Ht & Htr).
      cbv zeta in Htr.
      destruct (action_exit sv _ (chat_id ev) "typing") as [w2 out2].
      cbn [trace]. exists tail, out2. split; [assumption|].
      now rewrite Htr, <- app_assoc.
Qed.

(** The traces of the dispatch: the welcome and a log line when the text
    as sent begins with /start; then the trace of the handler, with the log
    line of the library when the handler raises. *)
Lemma dispatch_shape (ev : new_message) (w : world sv) :
  exists before w1,
    trace (Bot.dispatch rt sv ev w)
    = (before ++ trace (Bot.message_handler rt sv ev w1)
       ++ library_log "message_handler"
            (result (Bot.message_handler rt sv ev w1)))%list /\
    (before = [] \/
     exists out level msg,
       before = [EvRespond (chat_id ev) Bot.welcome_message out;
                 EvLog level msg]).
Proof.
  destruct (Bot.start_pattern (raw_text ev)) eqn:Hs.
  - destruct (dispatch_start rt sv ev w Hs)
      as (w1 & out & level & msg & _ & _ & Htr).
    eexists. exists w1. split; [exact Htr|]. right. eauto.
  - exists [], w. split; [exact (proj2 (dispatch_query rt sv ev w Hs))|].
    now left.
Qed.

Lemma session_cons (ev : new_message) (rest : list new_message)
    (w : world sv) :
  trace (Bot.session rt sv (ev :: rest) w)
  = (trace (Bot.dispatch rt sv ev w)
     ++ trace (Bot.session rt sv rest
                 (world_after (Bot.dispatch rt sv ev w))))%list.
Proof.
  cbn [Bot.session].
  now rewrite (bind_returns sv _ _ _ tt (dispatch_returns rt sv ev w)).
Qed.

Lemma begun_app (a b : list event) : begun (a ++ b) = (begun a + begun b)%nat.
Proof.
  unfold begun. now rewrite filter_app, length_app.
Qed.

Lemma ended_app (a b : list event) : ended (a ++ b) = (ended a + ended b)%nat.
Proof.
  unfold ended. now rewrite filter_app, length_app.
Qed.

Lemma searches_app (a b : list event) :
  searches (a ++ b) = (searches a ++ searches b)%list.
Proof.
  apply collect_app.
Qed.

Lemma prompts_app (a b : list event) :
  prompts (a ++ b) = (prompts a ++ prompts b)%list.
Proof.
  apply collect_app.
Qed.

Lemma replies_app (a b : list event) :
  replies (a ++ b) = (replies a ++ replies b)%list.
Proof.
  apply collect_app.
Qed.

(** What one message costs and leaves in the trace. *)
Lemma message_handler_measures (ev : new_message) (w : world sv) :
  let tr := trace (Bot.message_handler rt sv ev w) in
  (forall c m, In (c, m) (replies tr) -> c = chat_id ev) /\
  begun tr = ended tr /\
  (List.length (searches tr)
   <= if String.prefix "/" (text ev) then 0 else 3)%nat /\
  (List.length (prompts tr)
   <= if String.prefix "/" (text ev) then 0 else 1)%nat.
Proof.
  cbv zeta.
  destruct (message_handler_shape ev w)
    as [[Hc ->] | [Hc [[e ->] | (w1 & tail & out & Htail & ->)]]];
    rewrite Hc.
  - cbn. split; [intros c m []|]. repeat split; lia.
  - cbn. split; [intros c m []|]. repeat split; lia.
  - pose proof (process_query_pipeline_only rt sv (text ev) w1) as Hpipe.
    destruct (pipeline_only _ Hpipe) as [Hnone _].
    destruct (pipeline_quiet _ Hpipe) as [Hb He].
    destruct (process_query_cost (text ev) w1) as [Hs Hp]. cbv zeta in Hs, Hp.
    set (p := trace (Bot.process_query rt sv (text ev) w1)) in *.
    change (received ev :: EvActionEnter (chat_id ev) "typing" (inr tt)
            :: p ++ tail ++ [EvActionExit (chat_id ev) "typing" out])%list
      with ([received ev; EvActionEnter (chat_id ev) "typing" (inr tt)]
            ++ p ++ tail ++ [EvActionExit (chat_id ev) "typing" out])%list.
    rewrite !replies_app, !begun_app, !ended_app, !searches_app, !prompts_app.
    rewrite Hnone, Hb, He, !length_app.
    destruct Htail; cbn; (split; [|split; [reflexivity|split; lia]]);
      intros c m Hin; repeat (destruct Hin as [Hin|Hin]; [congruence|]);
      destruct Hin.
Qed.

Lemma dispatch_measures (ev : new_message) (w : world sv) :
  let tr := trace (Bot.dispatch rt sv ev w) in
  (forall c m, In (c, m) (replies tr) -> c = chat_id ev) /\
  begun tr = ended tr /\
  (List.length (searches tr)
   <= if String.prefix "/" (text ev) then 0 else 3)%nat /\
  (List.length (prompts tr)
   <= if String.prefix "/" (text ev) then 0 else 1)%nat.
Proof.
  cbv zeta.
  destruct (dispatch_shape ev w) as (before & w1 & -> & Hbefore).
  destruct (message_handler_measures ev w1) as (Hr & Hb & Hs & Hp).
  cbv zeta in *.
  destruct (library_log_quiet "message_handler"
              (result (Bot.message_handler rt sv ev w1)))
    as (Lr & Ls & Lp & Lb & Le).
  rewrite !replies_app, !begun_app, !ended_app, !searches_app, !prompts_app.
  rewrite Lr, Ls, Lp, Lb, Le, !length_app, !app_nil_r.
  destruct Hbefore as [-> | (out & level & msg & ->)]; cbn.
  - repeat split; try lia; assumption.
  - split; [|split; [|split]]; try lia.
    intros c m [H|H]; [congruence | now apply Hr in H].
Qed.

(** X14: in a session every reply goes to the chat of one of its
    messages: no answer, apology or welcome is sent to another chat. *)
Theorem replies_stay_in_chat (evs : list new_message) :
  forall (w : world sv) (c : Z) (m : string),
    In (c, m) (replies (trace (Bot.session rt sv evs w))) ->
    In c (map chat_id evs).
Proof.
  induction evs as [|ev rest IH]; intros w c m.
  - intros [].
  - rewrite session_cons, replies_app. intros Hin.
    apply in_app_or in Hin as [Hin|Hin].
    + left. symmetry.
      now apply (proj1 (dispatch_measures ev w)) in Hin.
    + right. eauto.
Qed.

(** X15: in a session every typing action that was begun is ended,
    whatever the services do: as many actions are ended as were begun. *)
Theorem typing_balanced (evs : list new_message) :
  forall w : world sv,
    begun (trace (Bot.session rt sv evs w))
    = ended (trace (Bot.session rt sv evs w)).
Proof.
  induction evs as [|ev rest IH]; intros w; [reflexivity|].
  rewrite session_cons, begun_app, ended_app, IH.
  now rewrite (proj1 (proj2 (dispatch_measures ev w))).
Qed.

(** X16: a session calls the model at most once and the index at most
    three times for each message that is not a command, and never for a
    command: nothing is retried. *)
Theorem session_cost (evs : list new_message) :
  forall w : world sv,
    (List.length (prompts (trace (Bot.session rt sv evs w)))
     <= List.length (queries evs))%nat /\
    (List.length (searches (trace (Bot.session rt sv evs w)))
     <= 3 * List.length (queries evs))%nat.
Proof.
  induction evs as [|ev rest IH]; intros w; [cbn; lia|].
  rewrite session_cons, prompts_app, searches_app, !length_app.
  destruct (IH (world_after (Bot.dispatch rt sv ev w))) as [IHp IHs].
  destruct (dispatch_measures ev w) as (_ & _ & Hs & Hp). cbv zeta in Hs, Hp.
  cbn [queries filter]. fold (queries rest).
  destruct (String.prefix "/" (text ev)); cbn [negb List.length]; lia.
Qed.

End More.

(** ** The further properties at work on the sample worlds *)

Lemma format_hits_first_failure_witness :
  format_hits rt0 ([hit_full] ++ PStr "bio-17" :: [hit_full])
  = inl (AttributeError (PStr "bio-17") "get").
Proof.
  exact (format_hits_first_failure rt0 [hit_full]
           [render_block "bio-17" "0.5" "42" "Photosynthesis"
              "Light is absorbed by chlorophyll."]
           (PStr "bio-17") (AttributeError (PStr "bio-17") "get") [hit_full]
           eq_refl eq_refl).
Defined.

Lemma model_outcome_is_query_outcome_witness :
  result (Bot.process_query rt0 sv_mute (text question) tt)
  = inl GenerationError.
Proof.
  eapply proj1.
  eapply (model_outcome_is_query_outcome rt0 sv_mute (text question) tt).
  cbv. do 3 right. left. reflexivity.
Defined.

Lemma context_in_namespace_order_witness :
  prompts (trace (Bot.process_query rt0 sv_ok (text question) tt))
  = [system_prompt (text question)
       (render_block "bio-17" "0.5" "42" "Photosynthesis"
          "Light is absorbed by chlorophyll." ++ nl ++
        render_block "bio-17" "0.5" "42" "Photosynthesis"
          "Light is absorbed by chlorophyll." ++ nl ++
        render_block "bio-17" "0.5" "42" "Photosynthesis"
          "Light is absorbed by chlorophyll.")].
Proof.
  pose proof (context_in_namespace_order rt0 sv_ok (text question)
                tt tt tt tt
                (response_of [hit_full]) (response_of [hit_full])
                (response_of [hit_full])
                (render_block "bio-17" "0.5" "42" "Photosynthesis"
                   "Light is absorbed by chlorophyll.")
                (render_block "bio-17" "0.5" "42" "Photosynthesis"
                   "Light is absorbed by chlorophyll.")
                (render_block "bio-17" "0.5" "42" "Photosynthesis"
                   "Light is absorbed by chlorophyll.")
                eq_refl eq_refl eq_refl eq_refl eq_refl eq_refl) as Hrun.
  cbv zeta in Hrun.
  destruct (model_generate sv_ok tt _) as [w4 out].
  rewrite Hrun. reflexivity.
Defined.

Lemma unformattable_result_stops_query_witness :
  result (Bot.process_query rt0 sv_garbled (text question) tt)
  = inl (AttributeError (PStr "bio-17") "get") /\
  searches (trace (Bot.process_query rt0 sv_garbled (text question) tt))
  = [("key_words", 5, text question)].
Proof.
  pose proof (unformattable_result_stops_query rt0 sv_garbled (text question)
                tt "key_words" 5 (text question)
                (response_of [PStr "bio-17"])
                (AttributeError (PStr "bio-17") "get")
                (or_introl eq_refl) eq_refl) as (Hres & _ & _).
  split; [exact Hres | reflexivity].
Defined.

Lemma handler_delivers_answer_witness :
  replies (trace (Bot.message_handler rt0 sv_ok question tt))
  = [(7, "Plants turn light into sugar.")].
Proof.
  exact (proj2 (handler_delivers_answer rt0 sv_ok question tt tt tt tt
                  "Plants turn light into sugar." (inr tt)
                  eq_refl eq_refl eq_refl eq_refl eq_refl)).
Defined.

Lemma undelivered_answer_then_apology_witness :
  replies (trace (Bot.message_handler rt0 sv_deaf question tt))
  = [(7, "Plants turn light into sugar."); (7, Bot.apology)] /\
  result (Bot.message_handler rt0 sv_deaf question tt) = inl DispatchError.
Proof.
  pose proof (undelivered_answer_then_apology rt0 sv_deaf question
                tt tt tt tt tt "Plants turn light into sugar."
                DispatchError (inl DispatchError) (inr tt)
                eq_refl eq_refl eq_refl eq_refl eq_refl eq_refl)
    as (Hr & _ & Hres).
  split; [exact Hr | exact Hres].
Defined.

Lemma replies_stay_in_chat_witness : In 8 (map chat_id [question; question2]).
Proof.
  exact (replies_stay_in_chat rt0 sv_flaky [question; question2] 0%nat 8
           "Plants turn light into sugar." (or_intror (or_introl eq_refl))).
Defined.
